(** * ICMP echo codec (icmp.c): shallow embedding and verified properties

    The development follows [src/icmp.c] function by function.  Buffers
    ([uint8_t *] together with a length) are lists of bytes, so that [len]
    is the length of the list; C integers are [Z] with the conversions to
    [uint8_t], [uint16_t] and [uint32_t] written out.  The packet structure
    is threaded explicitly through [icmp_parse], which returns its [int]
    result together with the packet as the call leaves it. *)

From Stdlib Require Import ZArith Lia.
From Stdlib Require Import Strings.Byte.
From stdpp Require Import base list.

Local Open Scope Z_scope.

(** ** Machine integers and bytes *)

Module Mach.

Definition INT_MAX : Z := 2 ^ 31 - 1.

(** Conversion of an integer value to [uint16_t] and to [uint32_t]. *)
Definition to_uint16 (z : Z) : Z := z mod 2 ^ 16.
Definition to_uint32 (z : Z) : Z := z mod 2 ^ 32.

(** The value of a [uint8_t] cell. *)
Definition u8 (b : byte) : Z := Z.of_N (Byte.to_N b).

(** Conversion of an integer value to [uint8_t] (a store into a byte cell). *)
Definition to_uint8 (z : Z) : byte :=
  default x00 (Byte.of_N (Z.to_N (z mod 2 ^ 8))).

End Mach.
Import Mach.

#[global] Instance byte_inhabited : Inhabited byte := populate x00.

(** ** Data model *)

(** Values of the system headers: [ICMP_ECHO], [ICMP_ECHOREPLY]
    (netinet/ip_icmp.h), [ICMP6_ECHO_REQUEST], [ICMP6_ECHO_REPLY]
    (netinet/icmp6.h), [AF_INET], [AF_INET6] (sys/socket.h, Linux). *)
Definition ICMP_ECHO : Z := 8.
Definition ICMP_ECHOREPLY : Z := 0.
Definition ICMP6_ECHO_REQUEST : Z := 128.
Definition ICMP6_ECHO_REPLY : Z := 129.
Definition AF_INET : Z := 2.
Definition AF_INET6 : Z := 10.

(** Modelled from the spec: the constant [ICMP_HDRLEN] of icmp.h, which is
    not part of the sources at hand; the wire header is fixed at 8 bytes. *)
Definition ICMP_HDRLEN : Z := 8.

(** Modelled from the spec: the enumeration of icmp.h behind the [type]
    field, one of Request and Reply. *)
Inductive icmp_type : Type :=
  | ICMP_REQUEST
  | ICMP_REPLY.

#[global] Instance icmp_type_eq_dec : EqDecision icmp_type.
Proof. solve_decision. Defined.

(** [struct sockaddr_storage]: the codec reads [ss_family] only; the rest of
    the address is opaque and handed to the send primitive as it is. *)
Record sockaddr_storage : Type := {
  ss_family : Z;
  ss_addr : list byte;
}.

(** Modelled from the spec: [struct icmp_packet] of icmp.h, with the fields
    icmp.c reads and writes.  [payload] is the pointer: [None] is [NULL],
    [Some buf] an allocated buffer holding [buf]. *)
Record icmp_packet : Type := {
  peer : sockaddr_storage;
  peer_len : Z;
  type : icmp_type;
  id : Z;
  seqno : Z;
  payload : option (list byte);
  payload_len : Z;
}.

(** Modelled from the spec: the macro [ICMP_ADDRFAMILY] of icmp.h, the
    address family stored in the packet's peer address. *)
Definition ICMP_ADDRFAMILY (pkt : icmp_packet) : Z := ss_family (peer pkt).

(** Field assignments [pkt->f = v]. *)
Definition set_type (v : icmp_type) (p : icmp_packet) : icmp_packet :=
  {| peer := peer p; peer_len := peer_len p; type := v; id := id p;
     seqno := seqno p; payload := payload p; payload_len := payload_len p |}.
Definition set_id (v : Z) (p : icmp_packet) : icmp_packet :=
  {| peer := peer p; peer_len := peer_len p; type := type p; id := v;
     seqno := seqno p; payload := payload p; payload_len := payload_len p |}.
Definition set_seqno (v : Z) (p : icmp_packet) : icmp_packet :=
  {| peer := peer p; peer_len := peer_len p; type := type p; id := id p;
     seqno := v; payload := payload p; payload_len := payload_len p |}.
Definition set_payload (v : option (list byte)) (p : icmp_packet) : icmp_packet :=
  {| peer := peer p; peer_len := peer_len p; type := type p; id := id p;
     seqno := seqno p; payload := v; payload_len := payload_len p |}.
Definition set_payload_len (v : Z) (p : icmp_packet) : icmp_packet :=
  {| peer := peer p; peer_len := peer_len p; type := type p; id := id p;
     seqno := seqno p; payload := payload p; payload_len := v |}.

(** The same packet with another address family in its peer address. *)
Definition with_family (f : Z) (p : icmp_packet) : icmp_packet :=
  {| peer := {| ss_family := f; ss_addr := ss_addr (peer p) |};
     peer_len := peer_len p; type := type p; id := id p;
     seqno := seqno p; payload := payload p; payload_len := payload_len p |}.

(** The bytes of the payload: the first [payload_len] bytes behind the
    [payload] pointer, nothing behind [NULL]. *)
Definition payload_data (p : icmp_packet) : list byte :=
  match payload p with
  | Some buf => take (Z.to_nat (payload_len p)) buf
  | None => []
  end.

(** A packet the encoder may be given: [id] and [seqno] are [uint16_t],
    [payload] holds [payload_len] bytes, and [ICMP_HDRLEN + payload_len] is
    an [int]. *)
Definition pkt_wf (p : icmp_packet) : Prop :=
  0 <= id p < 2 ^ 16 /\
  0 <= seqno p < 2 ^ 16 /\
  0 <= payload_len p /\
  ICMP_HDRLEN + payload_len p <= INT_MAX /\
  Z.of_nat (length (payload_data p)) = payload_len p.

#[global] Instance pkt_wf_dec p : Decision (pkt_wf p).
Proof. unfold pkt_wf. apply _. Defined.

(** ** The family rule table *)

Record icmp_rule : Type := {
  request_type : Z;
  reply_type : Z;
  use_checksum : Z;
  strip_iphdr : Z;
}.

Definition icmpv4 : icmp_rule := {|
  request_type := ICMP_ECHO;
  reply_type := ICMP_ECHOREPLY;
  use_checksum := 1;
  strip_iphdr := 1;
|}.

Definition icmpv6 : icmp_rule := {|
  request_type := ICMP6_ECHO_REQUEST;
  reply_type := ICMP6_ECHO_REPLY;
  use_checksum := 0;
  strip_iphdr := 0;
|}.

Definition GET_RULE (pkt : icmp_packet) : icmp_rule :=
  if ICMP_ADDRFAMILY pkt =? AF_INET then icmpv4 else icmpv6.

(** ** checksum, read16, write16 *)

(** The loop of [checksum]: [data] is what remains of the buffer from index
    [i] on, two bytes are consumed per iteration, and the accumulator is a
    [uint32_t]. *)
Fixpoint checksum_loop (data : list byte) (csum : Z) : Z :=
  match data with
  | [] => csum
  | [hi] =>
      let c := to_uint16 (Z.shiftl (u8 hi) 8) in
      to_uint32 (csum + c)
  | hi :: lo :: rest =>
      let c := to_uint16 (Z.shiftl (u8 hi) 8) in
      let c := Z.lor c (u8 lo) in
      checksum_loop rest (to_uint32 (csum + c))
  end.

(** The two folding steps and the final complement. *)
Definition checksum_fold (csum : Z) : Z :=
  let csum := to_uint32 (Z.shiftr csum 16 + Z.land csum 0xffff) in
  let csum := to_uint32 (csum + Z.shiftr csum 16) in
  to_uint16 (to_uint32 (Z.lnot csum)).

Definition checksum (data : list byte) : Z :=
  checksum_fold (checksum_loop data 0).

Definition read16 (data : list byte) (off : nat) : Z :=
  to_uint16 (Z.lor (Z.shiftl (u8 (data !!! off)) 8) (u8 (data !!! S off))).

(** The parameter [s] is a [uint16_t]: the argument is converted on entry. *)
Definition write16 (data : list byte) (off : nat) (s : Z) : list byte :=
  let s := to_uint16 s in
  let data := <[off := to_uint8 (Z.shiftr s 8)]> data in
  <[S off := to_uint8 (Z.land s 0xFF)]> data.

(** [memcpy(&data[off], src, n)]. *)
Definition memcpy (data : list byte) (off : nat) (src : list byte) (n : Z)
  : list byte :=
  list_inserts off (take (Z.to_nat n) src) data.

(** ** icmp_encode *)

(** [calloc_ok] tells whether [calloc] returns a buffer; the result is the
    buffer and the length stored through [len], or [None] for [NULL]. *)
Definition icmp_encode (calloc_ok : bool) (pkt : icmp_packet)
  : option (list byte * Z) :=
  let rule := GET_RULE pkt in
  let pktlen := ICMP_HDRLEN + payload_len pkt in
  if negb calloc_ok then None else
  let data := replicate (Z.to_nat pktlen) x00 in
  let data :=
    match type pkt with
    | ICMP_REQUEST => <[0%nat := to_uint8 (request_type rule)]> data
    | _ => <[0%nat := to_uint8 (reply_type rule)]> data
    end in
  let data := write16 data 4 (id pkt) in
  let data := write16 data 6 (seqno pkt) in
  let data :=
    if payload_len pkt =? 0 then data
    else memcpy data 8 (default [] (payload pkt)) (payload_len pkt) in
  let data :=
    if use_checksum rule =? 0 then data
    else write16 data 2 (checksum data) in
  Some (data, pktlen).

(** ** icmp_send *)

(** One call of the send primitive: socket, buffer, length, destination. *)
Record send_call : Type := {
  sc_socket : Z;
  sc_data : list byte;
  sc_len : Z;
  sc_dest : sockaddr_storage;
  sc_destlen : Z;
}.

Section Send.

(** The external send primitive: the value [sendto] reports for a call,
    as the [int] it is stored in. *)
Variable sendto : send_call -> Z.

(** The calls made so far are threaded through as a log. *)
Definition icmp_send (calloc_ok : bool) (socket : Z) (pkt : icmp_packet)
    (log : list send_call) : Z * list send_call :=
  match icmp_encode calloc_ok pkt with
  | None => (0, log)
  | Some (icmpdata, len) =>
      let call := {| sc_socket := socket; sc_data := icmpdata; sc_len := len;
                     sc_dest := peer pkt; sc_destlen := peer_len pkt |} in
      let len := sendto call in
      (len, log ++ [call])
  end.

End Send.

(** ** icmp_parse *)

(** Length of the IP header announced by its first byte. *)
Definition ip_hdrlen (b0 : byte) : Z := Z.shiftl (Z.land (u8 b0) 0x0f) 2.

(** The strip step: an error code, or the buffer from the ICMP header on. *)
Definition strip_step (rule : icmp_rule) (data : list byte) : Z + list byte :=
  let len := Z.of_nat (length data) in
  if strip_iphdr rule =? 0 then inr data else
  if len =? 0 then inl (-3) else
  let hdrlen := ip_hdrlen (data !!! 0%nat) in
  if len <? hdrlen then inl (-4) else
  inr (drop (Z.to_nat hdrlen) data).

(** The assignments after the type is classified.  The source uses the
    result of [malloc] unchecked; the embedding describes the calls in which
    it returns a buffer. *)
Definition parse_fields (pkt : icmp_packet) (data : list byte)
  : Z * icmp_packet :=
  let len := Z.of_nat (length data) in
  let pkt := set_id (read16 data 4) pkt in
  let pkt := set_seqno (read16 data 6) pkt in
  let pkt := set_payload_len (len - ICMP_HDRLEN) pkt in
  let pkt :=
    if payload_len pkt =? 0 then set_payload None pkt
    else set_payload
           (Some (take (Z.to_nat (payload_len pkt))
                       (drop (Z.to_nat ICMP_HDRLEN) data))) pkt in
  (0, pkt).

(** [icmp_parse] from the length check on: [data] starts at the ICMP header. *)
Definition parse_segment (rule : icmp_rule) (pkt : icmp_packet)
    (data : list byte) : Z * icmp_packet :=
  let len := Z.of_nat (length data) in
  if len <? ICMP_HDRLEN then (-1, pkt) else
  if negb (use_checksum rule =? 0) && negb (checksum data =? 0)
  then (-2, pkt) else
  if request_type rule =? u8 (data !!! 0%nat) then
    parse_fields (set_type ICMP_REQUEST pkt) data
  else if reply_type rule =? u8 (data !!! 0%nat) then
    parse_fields (set_type ICMP_REPLY pkt) data
  else (-5, pkt).

Definition icmp_parse (pkt : icmp_packet) (data : list byte)
  : Z * icmp_packet :=
  let rule := GET_RULE pkt in
  match strip_step rule data with
  | inl err => (err, pkt)
  | inr data => parse_segment rule pkt data
  end.

(** ** Descriptions used in the statements *)

(** The wire code of a logical type under a rule. *)
Definition type_code (rule : icmp_rule) (t : icmp_type) : Z :=
  match t with
  | ICMP_REQUEST => request_type rule
  | ICMP_REPLY => reply_type rule
  end.

(** High and low byte of a 16-bit value. *)
Definition hi8 (s : Z) : byte := to_uint8 (Z.shiftr (to_uint16 s) 8).
Definition lo8 (s : Z) : byte := to_uint8 (Z.land (to_uint16 s) 0xFF).

(** The 8-byte wire header: type, code, checksum, identifier and sequence
    number, the 16-bit fields in big-endian order. *)
Definition wire_header (t ck i s : Z) : list byte :=
  [to_uint8 t; x00; hi8 ck; lo8 ck; hi8 i; lo8 i; hi8 s; lo8 s].

(** The value of the checksum field: under a rule with a checksum, the
    checksum of the message with the field zeroed; zero otherwise. *)
Definition wire_checksum (rule : icmp_rule) (pkt : icmp_packet) : Z :=
  if use_checksum rule =? 0 then 0
  else checksum (wire_header (type_code rule (type pkt)) 0 (id pkt) (seqno pkt)
                 ++ payload_data pkt).

(** The wire image of a packet: header, then payload. *)
Definition wire (rule : icmp_rule) (pkt : icmp_packet) : list byte :=
  wire_header (type_code rule (type pkt)) (wire_checksum rule pkt)
              (id pkt) (seqno pkt) ++ payload_data pkt.

(** The receiver's packet [rcv] after it took the logical fields of [pkt]:
    the peer is the receiver's own, an empty payload is [NULL]. *)
Definition received (rcv pkt : icmp_packet) : icmp_packet :=
  {| peer := peer rcv; peer_len := peer_len rcv;
     type := type pkt; id := id pkt; seqno := seqno pkt;
     payload := if payload_len pkt =? 0 then None else Some (payload_data pkt);
     payload_len := payload_len pkt |}.

(** The sum of the 16-bit big-endian words of a buffer, without wrap-around;
    a last single byte is the high byte of its word. *)
Fixpoint word_sum (data : list byte) : Z :=
  match data with
  | [] => 0
  | [hi] => 256 * u8 hi
  | hi :: lo :: rest => 256 * u8 hi + u8 lo + word_sum rest
  end.

(** The one's-complement sum of 16-bit words whose plain sum is [s]: the
    sum with end-around carry, between 1 and 65535 unless [s] is 0. *)
Definition ones_complement_sum (s : Z) : Z :=
  if s =? 0 then 0 else (s - 1) mod 65535 + 1.



(** An IP header whose first byte announces the header's own length. *)
Definition is_iphdr (hdr : list byte) : Prop :=
  hdr <> [] /\ ip_hdrlen (hdr !!! 0%nat) = Z.of_nat (length hdr).

(** The error codes of [icmp_parse], in the order of the checks. *)
Definition parse_errors : list Z := [-3; -4; -1; -2; -5].

(** A packet for the examples. *)
Definition mk_packet (family : Z) (t : icmp_type) (i s : Z) (pl : list byte)
  : icmp_packet :=
  {| peer := {| ss_family := family; ss_addr := [] |};
     peer_len := 16; type := t; id := i; seqno := s;
     payload := match pl with [] => None | _ => Some pl end;
     payload_len := Z.of_nat (length pl) |}.

(** A 20-byte IP header: version 4, header length nibble 5. *)
Definition iphdr20 : list byte := x45 :: replicate 19 x00.

(** * Properties *)

(** ** Bytes and machine arithmetic *)

Lemma u8_range b : 0 <= u8 b < 256.
Proof. unfold u8. pose proof (Byte.to_N_bounded b). lia. Qed.

Lemma u8_to_uint8 z : u8 (to_uint8 z) = z mod 256.
Proof.
  unfold u8, to_uint8. change (2 ^ 8) with 256.
  pose proof (Z.mod_pos_bound z 256 ltac:(lia)) as Hr.
  destruct (Byte.of_N (Z.to_N (z mod 256))) as [b|] eqn:E.
  - apply Byte.to_of_N in E. simpl. rewrite E. lia.
  - apply Byte.of_N_None_iff in E. lia.
Qed.

Lemma to_uint8_u8 b : to_uint8 (u8 b) = b.
Proof.
  unfold to_uint8, u8. pose proof (Byte.to_N_bounded b).
  change (2 ^ 8) with 256.
  rewrite Z.mod_small by lia. rewrite N2Z.id, Byte.of_to_N. reflexivity.
Qed.

(** Adding the folded complement of a 32-bit sum to that sum, with the
    accumulator's wrap-around, gives a sum that folds to zero. *)
Lemma checksum_fold_self s :
  0 <= s < 2 ^ 32 ->
  checksum_fold (to_uint32 (s + checksum_fold s)) = 0.
Proof.
  intros Hs. unfold checksum_fold, to_uint32, to_uint16.
  change 0xffff with (Z.ones 16).
  rewrite !Z.land_ones, !Z.shiftr_div_pow2 by lia.
  unfold Z.lnot. change (2^16) with 65536. change (2^32) with 4294967296 in *.
  Z.div_mod_to_equations. lia.
Qed.

(** Induction over a list two elements at a time, as the loop reads it. *)
Lemma list_pair_ind {A} (P : list A -> Prop) :
  P [] -> (forall a, P [a]) -> (forall a b l, P l -> P (a :: b :: l)) ->
  forall l, P l.
Proof.
  intros H0 H1 H2.
  fix IH 1. intros [|a [|b l]]; [exact H0 | apply H1 | apply H2, IH].
Qed.

Lemma lor_shl8 a b :
  0 <= a -> 0 <= b < 256 ->
  Z.lor (Z.shiftl a 8) b = 256 * a + b.
Proof.
  intros Ha Hb.
  assert (Hland : Z.land (Z.shiftl a 8) b = 0).
  { apply Z.bits_inj'; intros n Hn. rewrite Z.land_spec, Z.bits_0.
    destruct (Z.lt_ge_cases n 8) as [Hlt|Hge].
    - rewrite Z.shiftl_spec_low by lia. reflexivity.
    - destruct (Z.eq_dec b 0) as [->|Hb0].
      + rewrite Z.bits_0. apply andb_false_r.
      + rewrite (Z.bits_above_log2 b n); [apply andb_false_r | lia |].
        apply Z.lt_le_trans with 8; [|assumption].
        apply Z.log2_lt_pow2; [lia|]. change (2 ^ 8) with 256. lia. }
  rewrite <- Z.lxor_lor, <- Z.add_nocarry_lxor by assumption.
  rewrite Z.shiftl_mul_pow2 by lia. change (2 ^ 8) with 256. lia.
Qed.

Lemma lor_shift8 a b :
  0 <= a < 256 -> 0 <= b < 256 ->
  Z.lor (to_uint16 (Z.shiftl a 8)) b = 256 * a + b.
Proof.
  intros Ha Hb. unfold to_uint16.
  rewrite Z.mod_small by (rewrite Z.shiftl_mul_pow2 by lia; change (2 ^ 8) with 256; lia).
  apply lor_shl8; lia.
Qed.

Lemma word_sum_nonneg data : 0 <= word_sum data.
Proof.
  induction data as [|a|a b l IH] using list_pair_ind; simpl.
  - lia.
  - pose proof (u8_range a). lia.
  - pose proof (u8_range a). pose proof (u8_range b). lia.
Qed.

(** The loop adds the word sum of the buffer to the accumulator, modulo
    2^32. *)
Lemma checksum_loop_sum data : forall acc,
  0 <= acc < 2 ^ 32 ->
  checksum_loop data acc = to_uint32 (acc + word_sum data).
Proof.
  induction data as [|a|a b l IH] using list_pair_ind; intros acc Hacc.
  - simpl. unfold to_uint32. rewrite Z.add_0_r, Z.mod_small; lia.
  - simpl. pose proof (u8_range a).
    pose proof (lor_shift8 (u8 a) 0 ltac:(lia) ltac:(lia)) as E.
    rewrite Z.lor_0_r in E. rewrite E. f_equal. lia.
  - cbn [checksum_loop word_sum]. pose proof (u8_range a). pose proof (u8_range b).
    rewrite lor_shift8 by lia.
    rewrite IH by (unfold to_uint32; apply Z.mod_pos_bound; lia).
    unfold to_uint32. rewrite Zplus_mod_idemp_l. f_equal. lia.
Qed.

(** The copy of the payload behind an 8-byte header. *)
Lemma memcpy_payload (h : list byte) pkt :
  length h = 8%nat ->
  0 <= payload_len pkt ->
  Z.of_nat (length (payload_data pkt)) = payload_len pkt ->
  (if payload_len pkt =? 0 then h ++ replicate (Z.to_nat (payload_len pkt)) x00
   else memcpy (h ++ replicate (Z.to_nat (payload_len pkt)) x00) 8
          (default [] (payload pkt)) (payload_len pkt))
  = h ++ payload_data pkt.
Proof.
  intros Hh Hn Hlen. destruct (Z.eqb_spec (payload_len pkt) 0) as [E|E].
  - rewrite E in *. simpl. destruct (payload_data pkt); [reflexivity | discriminate].
  - unfold memcpy. unfold payload_data in *. destruct (payload pkt) as [buf|]; simpl in *; [|lia].
    replace 8%nat with (length h + 0)%nat by lia.
    rewrite list_inserts_app_r. f_equal.
    rewrite <- (app_nil_r (replicate _ _)).
    rewrite list_inserts_0_r; [apply app_nil_r|].
    rewrite length_replicate. lia.
Qed.

(** ** The layout of the encoded buffer *)

(** What [icmp_encode] builds by its stores is the wire image. *)
Lemma icmp_encode_wire pkt :
  0 <= payload_len pkt ->
  Z.of_nat (length (payload_data pkt)) = payload_len pkt ->
  icmp_encode true pkt
  = Some (wire (GET_RULE pkt) pkt, ICMP_HDRLEN + payload_len pkt).
Proof.
  intros Hn Hlen. unfold icmp_encode, wire, wire_checksum. simpl negb. cbv iota.
  f_equal. f_equal.
  set (rule := GET_RULE pkt).
  replace (Z.to_nat (ICMP_HDRLEN + payload_len pkt))
    with (8 + Z.to_nat (payload_len pkt))%nat by (unfold ICMP_HDRLEN; lia).
  rewrite replicate_add.
  assert (Ht : match type pkt with
               | ICMP_REQUEST => <[0%nat := to_uint8 (request_type rule)]>
                   (replicate 8 x00 ++ replicate (Z.to_nat (payload_len pkt)) x00)
               | ICMP_REPLY => <[0%nat := to_uint8 (reply_type rule)]>
                   (replicate 8 x00 ++ replicate (Z.to_nat (payload_len pkt)) x00)
               end
               = [to_uint8 (type_code rule (type pkt)); x00; x00; x00; x00; x00; x00; x00]
                  ++ replicate (Z.to_nat (payload_len pkt)) x00).
  { destruct (type pkt); reflexivity. }
  rewrite Ht. clear Ht. unfold write16. cbn [list_insert insert app].
  match goal with |- context [if payload_len pkt =? 0 then ?a :: ?b :: ?c :: ?d :: ?e :: ?f :: ?g :: ?h :: ?r else _] =>
    change (a :: b :: c :: d :: e :: f :: g :: h :: r) with ([a;b;c;d;e;f;g;h] ++ r) end.
  rewrite memcpy_payload by (reflexivity || assumption).
  destruct (use_checksum rule =? 0);
    unfold wire_header; change (hi8 0) with x00; change (lo8 0) with x00;
    unfold hi8, lo8; cbn [app insert list_insert]; reflexivity.
Qed.

Lemma checksum_fold_range s : 0 <= checksum_fold s < 2 ^ 16.
Proof. unfold checksum_fold, to_uint16. apply Z.mod_pos_bound. lia. Qed.

Lemma checksum_range data : 0 <= checksum data < 2 ^ 16.
Proof. apply checksum_fold_range. Qed.

Lemma u8_hi8 s : 0 <= s < 2 ^ 16 -> u8 (hi8 s) = s / 256.
Proof.
  intros Hs. unfold hi8, to_uint16. rewrite (Z.mod_small s) by assumption.
  rewrite u8_to_uint8, Z.shiftr_div_pow2 by lia.
  change (2 ^ 8) with 256. change (2 ^ 16) with 65536 in Hs.
  apply Z.mod_small. Z.div_mod_to_equations. lia.
Qed.

Lemma u8_lo8 s : u8 (lo8 s) = s mod 256.
Proof.
  unfold lo8, to_uint16. rewrite u8_to_uint8. change 0xFF with (Z.ones 8).
  rewrite Z.land_ones by lia. change (2 ^ 8) with 256. change (2 ^ 16) with 65536.
  Z.div_mod_to_equations. lia.
Qed.

(** Under a rule with a checksum the wire image sums to zero. *)
Lemma checksum_wire rule pkt :
  use_checksum rule <> 0 -> checksum (wire rule pkt) = 0.
Proof.
  intros Hc. unfold wire, wire_checksum.
  destruct (Z.eqb_spec (use_checksum rule) 0) as [|_]; [contradiction|].
  set (t := type_code rule (type pkt)).
  set (zeroed := wire_header t 0 (id pkt) (seqno pkt) ++ payload_data pkt).
  pose proof (checksum_range zeroed) as Hck.
  set (ck := checksum zeroed) in *.
  assert (Hsum : word_sum (wire_header t ck (id pkt) (seqno pkt) ++ payload_data pkt)
                 = word_sum zeroed + ck).
  { unfold zeroed, wire_header. cbn [app word_sum].
    rewrite (u8_hi8 ck), (u8_lo8 ck) by assumption.
    change (u8 (hi8 0)) with 0. change (u8 (lo8 0)) with 0.
    Z.div_mod_to_equations. lia. }
  unfold checksum at 1. rewrite checksum_loop_sum, Hsum by lia.
  unfold ck, checksum. rewrite checksum_loop_sum by lia.
  rewrite !Z.add_0_l.
  set (s := to_uint32 (word_sum zeroed)).
  replace (to_uint32 (word_sum zeroed + checksum_fold s))
    with (to_uint32 (s + checksum_fold s))
    by (unfold s, to_uint32; apply Zplus_mod_idemp_l).
  apply checksum_fold_self. unfold s, to_uint32. apply Z.mod_pos_bound. lia.
Qed.

Lemma wire_length rule pkt :
  Z.of_nat (length (wire rule pkt))
  = ICMP_HDRLEN + Z.of_nat (length (payload_data pkt)).
Proof. unfold wire, wire_header, ICMP_HDRLEN. rewrite length_app. simpl length. lia. Qed.

Lemma read16_bytes s (h t : list byte) k :
  0 <= s < 2 ^ 16 -> length h = k ->
  read16 (h ++ hi8 s :: lo8 s :: t) k = s.
Proof.
  intros Hs Hk. unfold read16. subst k.
  rewrite (list_lookup_total_middle h _ _ (length h) eq_refl).
  rewrite (cons_middle (hi8 s) h), app_assoc.
  rewrite (list_lookup_total_middle (h ++ [_]) _ _ (S (length h)))
    by (rewrite length_app; simpl; lia).
  rewrite u8_hi8, u8_lo8 by assumption.
  change (2 ^ 16) with 65536 in Hs.
  rewrite lor_shl8 by (Z.div_mod_to_equations; lia).
  unfold to_uint16. change (2 ^ 16) with 65536.
  Z.div_mod_to_equations. lia.
Qed.

Lemma parse_fields_wire rule pkt rcv :
  pkt_wf pkt ->
  parse_fields (set_type (type pkt) rcv) (wire rule pkt) = (0, received rcv pkt).
Proof.
  intros (Hid & Hseq & Hn & _ & Hlen). unfold parse_fields.
  rewrite wire_length, Hlen.
  replace (ICMP_HDRLEN + payload_len pkt - ICMP_HDRLEN) with (payload_len pkt) by lia.
  assert (E4 : read16 (wire rule pkt) 4 = id pkt).
  { unfold wire, wire_header.
    apply (read16_bytes (id pkt) [_; _; _; _] (_ :: _ :: _) 4 Hid eq_refl). }
  assert (E6 : read16 (wire rule pkt) 6 = seqno pkt).
  { unfold wire, wire_header.
    apply (read16_bytes (seqno pkt) [_; _; _; _; _; _] _ 6 Hseq eq_refl). }
  rewrite E4, E6. cbn [payload_len set_payload_len].
  unfold received. f_equal.
  destruct (payload_len pkt =? 0); [reflexivity|].
  unfold set_payload. cbn. do 2 f_equal.
  unfold wire, wire_header. cbn [drop app Z.to_nat ICMP_HDRLEN Pos.to_nat Pos.iter_op Nat.add].
  apply take_ge. lia.
Qed.

(** ** The rule table *)

Lemma GET_RULE_cases pkt :
  (ICMP_ADDRFAMILY pkt = AF_INET /\ GET_RULE pkt = icmpv4) \/
  (ICMP_ADDRFAMILY pkt <> AF_INET /\ GET_RULE pkt = icmpv6).
Proof.
  unfold GET_RULE. destruct (Z.eqb_spec (ICMP_ADDRFAMILY pkt) AF_INET); auto.
Qed.

Lemma type_code_byte pkt t :
  u8 (to_uint8 (type_code (GET_RULE pkt) t)) = type_code (GET_RULE pkt) t.
Proof.
  destruct (GET_RULE_cases pkt) as [[_ ->]|[_ ->]]; destruct t; reflexivity.
Qed.

Lemma type_code_classify pkt t :
  let rule := GET_RULE pkt in
  (if request_type rule =? type_code rule t then Some ICMP_REQUEST
   else if reply_type rule =? type_code rule t then Some ICMP_REPLY
   else None) = Some t.
Proof.
  destruct (GET_RULE_cases pkt) as [[_ ->]|[_ ->]]; destruct t; reflexivity.
Qed.

(** ** The strip step *)

Lemma strip_step_none rule data :
  strip_iphdr rule = 0 -> strip_step rule data = inr data.
Proof. intros H. unfold strip_step. rewrite H. reflexivity. Qed.

Lemma strip_step_iphdr rule hdr seg :
  strip_iphdr rule <> 0 -> is_iphdr hdr ->
  strip_step rule (hdr ++ seg) = inr seg.
Proof.
  intros Hs [Hne Hlen]. unfold strip_step.
  destruct (Z.eqb_spec (strip_iphdr rule) 0) as [|_]; [contradiction|].
  destruct hdr as [|b hdr]; [contradiction|].
  cbn [app lookup_total list_lookup_total] in *.
  destruct (Z.eqb_spec (Z.of_nat (length (b :: hdr ++ seg))) 0) as [E|_];
    [simpl in E; lia|].
  rewrite Hlen.
  destruct (Z.ltb_spec (Z.of_nat (length (b :: hdr ++ seg)))
                       (Z.of_nat (length (b :: hdr)))) as [E|_].
  { simpl in E. rewrite length_app in E. lia. }
  rewrite Nat2Z.id. f_equal.
  change (b :: hdr ++ seg) with ((b :: hdr) ++ seg). apply drop_app_length.
Qed.

(** ** Parsing a wire image *)

Lemma parse_segment_wire pkt rcv :
  pkt_wf pkt -> ICMP_ADDRFAMILY rcv = ICMP_ADDRFAMILY pkt ->
  parse_segment (GET_RULE rcv) rcv (wire (GET_RULE pkt) pkt)
  = (0, received rcv pkt).
Proof.
  intros Hwf Hfam.
  assert (Hr : GET_RULE rcv = GET_RULE pkt) by (unfold GET_RULE; rewrite Hfam; reflexivity).
  rewrite Hr. unfold parse_segment.
  pose proof Hwf as (_ & _ & Hn & _ & Hlen).
  rewrite wire_length, Hlen.
  destruct (Z.ltb_spec (ICMP_HDRLEN + payload_len pkt) ICMP_HDRLEN) as [E|_]; [lia|].
  assert (Hck : negb (use_checksum (GET_RULE pkt) =? 0)
                && negb (checksum (wire (GET_RULE pkt) pkt) =? 0) = false).
  { destruct (Z.eqb_spec (use_checksum (GET_RULE pkt)) 0) as [|Hc]; [reflexivity|].
    rewrite (checksum_wire _ _ Hc). reflexivity. }
  rewrite Hck.
  assert (H0 : u8 (wire (GET_RULE pkt) pkt !!! 0%nat)
               = type_code (GET_RULE pkt) (type pkt)).
  { unfold wire, wire_header. cbn [app lookup_total list_lookup_total].
    apply type_code_byte. }
  rewrite H0. pose proof (type_code_classify pkt (type pkt)) as Hcl. cbv zeta in Hcl.
  destruct (request_type (GET_RULE pkt) =? type_code (GET_RULE pkt) (type pkt)).
  - injection Hcl as Hcl. rewrite Hcl. apply parse_fields_wire, Hwf.
  - destruct (reply_type (GET_RULE pkt) =? type_code (GET_RULE pkt) (type pkt));
      [|discriminate].
    injection Hcl as Hcl. rewrite Hcl. apply parse_fields_wire, Hwf.
Qed.

Lemma received_payload_data rcv pkt :
  pkt_wf pkt -> payload_data (received rcv pkt) = payload_data pkt.
Proof.
  intros (_ & _ & Hn & _ & Hlen). unfold received, payload_data at 1. cbn.
  destruct (Z.eqb_spec (payload_len pkt) 0) as [E|E].
  - destruct (payload_data pkt); [reflexivity|]. simpl in Hlen. lia.
  - apply take_ge. lia.
Qed.

(** C1. Round trip: for every well-formed logical packet (type Request or
    Reply, 16-bit [id] and [seqno], any payload, the empty one included) and
    a receiver of the same address family, encoding succeeds and parsing the
    encoded bytes returns 0 with the original type, id, seqno and payload.
    This holds for the parse with the strip step skipped ([parse_segment])
    and for [icmp_parse] itself, on the bare bytes for a family without the
    strip step and behind an IP header that announces its own length for a
    family with it. *)
Theorem icmp_roundtrip (pkt rcv : icmp_packet) (hdr : list byte) :
  pkt_wf pkt ->
  ICMP_ADDRFAMILY rcv = ICMP_ADDRFAMILY pkt ->
  is_iphdr hdr ->
  exists data out,
    icmp_encode true pkt = Some (data, ICMP_HDRLEN + payload_len pkt) /\
    parse_segment (GET_RULE rcv) rcv data = (0, out) /\
    icmp_parse rcv (if strip_iphdr (GET_RULE rcv) =? 0 then data else hdr ++ data)
      = (0, out) /\
    type out = type pkt /\ id out = id pkt /\ seqno out = seqno pkt /\
    payload_data out = payload_data pkt /\ payload_len out = payload_len pkt.
Proof.
  intros Hwf Hfam Hhdr.
  exists (wire (GET_RULE pkt) pkt), (received rcv pkt).
  pose proof Hwf as (_ & _ & Hn & _ & Hlen).
  split; [apply icmp_encode_wire; assumption|].
  pose proof (parse_segment_wire pkt rcv Hwf Hfam) as Hseg.
  split; [exact Hseg|].
  split.
  - unfold icmp_parse.
    destruct (Z.eqb_spec (strip_iphdr (GET_RULE rcv)) 0) as [E|E].
    + rewrite strip_step_none by assumption. exact Hseg.
    + rewrite strip_step_iphdr by assumption. exact Hseg.
  - repeat split; try reflexivity. apply received_payload_data, Hwf.
Qed.

Lemma icmp_roundtrip_witness :
  let pkt := mk_packet AF_INET ICMP_REPLY 0xBEEF 7 [x01; x02; x03] in
  let rcv := mk_packet AF_INET ICMP_REQUEST 0 0 [] in
  pkt_wf pkt /\ ICMP_ADDRFAMILY rcv = ICMP_ADDRFAMILY pkt /\ is_iphdr iphdr20 /\
  exists data out,
    icmp_encode true pkt = Some (data, ICMP_HDRLEN + payload_len pkt) /\
    parse_segment (GET_RULE rcv) rcv data = (0, out) /\
    icmp_parse rcv (if strip_iphdr (GET_RULE rcv) =? 0 then data else iphdr20 ++ data)
      = (0, out) /\
    type out = type pkt /\ id out = id pkt /\ seqno out = seqno pkt /\
    payload_data out = payload_data pkt /\ payload_len out = payload_len pkt.
Proof.
  intros pkt rcv.
  assert (Hwf : pkt_wf pkt) by (vm_compute; intuition discriminate).
  assert (Hfam : ICMP_ADDRFAMILY rcv = ICMP_ADDRFAMILY pkt) by reflexivity.
  assert (Hhdr : is_iphdr iphdr20) by (split; [discriminate | reflexivity]).
  exact (conj Hwf (conj Hfam (conj Hhdr (icmp_roundtrip pkt rcv iphdr20 Hwf Hfam Hhdr)))).
Defined.

(** ** Odd lengths *)


Lemma checksum_word_sum data :
  checksum data = checksum_fold (to_uint32 (word_sum data)).
Proof. unfold checksum. rewrite checksum_loop_sum by lia. reflexivity. Qed.

(** ** The checksum is the complement of the one's-complement sum *)

Lemma checksum_fold_ones_complement s :
  0 <= s < 2 ^ 32 -> checksum_fold s = 65535 - ones_complement_sum s.
Proof.
  intros Hs. unfold checksum_fold, ones_complement_sum, to_uint32, to_uint16.
  change 0xffff with (Z.ones 16).
  rewrite !Z.land_ones, !Z.shiftr_div_pow2 by lia.
  unfold Z.lnot. change (2^16) with 65536. change (2^32) with 4294967296 in *.
  change (Z.ones 16) with 65535.
  destruct (Z.eqb_spec s 0) as [->|Hne]; [reflexivity|].
  pose proof (Z.div_mod s 65536 ltac:(lia)) as Hdm.
  pose proof (Z.mod_pos_bound s 65536 ltac:(lia)) as Hlo.
  set (hi := s / 65536) in *. set (lo := s mod 65536) in *.
  assert (Hhi : 0 <= hi < 65536) by lia.
  assert (E : (s - 1) mod 65535
              = if hi + lo - 1 <? 65535 then hi + lo - 1 else hi + lo - 65536).
  { destruct (Z.ltb_spec (hi + lo - 1) 65535); symmetry.
    - apply (Z.mod_unique_pos _ _ hi); lia.
    - apply (Z.mod_unique_pos _ _ (hi + 1)); lia. }
  rewrite E. clear E.
  destruct (Z.ltb_spec (hi + lo - 1) 65535); Z.div_mod_to_equations; lia.
Qed.

Lemma word_sum_bound data :
  2 * word_sum data <= 65535 * (Z.of_nat (length data) + 1).
Proof.
  induction data as [|a|a b l IH] using list_pair_ind.
  - simpl. lia.
  - simpl. pose proof (u8_range a). lia.
  - cbn [word_sum length]. pose proof (u8_range a). pose proof (u8_range b). lia.
Qed.

Lemma checksum_rfc1071 data :
  Z.of_nat (length data) <= 2 ^ 17 ->
  checksum data = 65535 - ones_complement_sum (word_sum data).
Proof.
  intros Hlen. rewrite checksum_word_sum.
  pose proof (word_sum_bound data). pose proof (word_sum_nonneg data).
  change (2 ^ 17) with 131072 in Hlen.
  assert (Hs : 0 <= word_sum data < 2 ^ 32) by (change (2 ^ 32) with 4294967296; lia).
  unfold to_uint32. rewrite Z.mod_small by assumption.
  apply checksum_fold_ones_complement, Hs.
Qed.

(** ** The checksum of the encoded buffer *)










(** C3. The worked example: the IPv4 echo request with id 0x1234, seqno 1
    and payload AA BB encodes to the ten bytes 08 00 CKSUM_HI CKSUM_LO 12 34
    00 01 AA BB, where CKSUM is the checksum of those ten bytes with the
    checksum field zeroed (0x3B0F); parsing that buffer, with the strip step
    skipped or behind a 20-byte IP header, gives type Request, id 0x1234,
    seqno 1 and payload AA BB. *)
Theorem encode_example_v4 :
  let pkt := mk_packet AF_INET ICMP_REQUEST 0x1234 0x0001 [xaa; xbb] in
  let rcv := mk_packet AF_INET ICMP_REPLY 0 0 [] in
  let cksum := checksum [x08; x00; x00; x00; x12; x34; x00; x01; xaa; xbb] in
  let buf := [x08; x00; to_uint8 (Z.shiftr cksum 8); to_uint8 (Z.land cksum 0xFF);
              x12; x34; x00; x01; xaa; xbb] in
  let out := {| peer := peer rcv; peer_len := peer_len rcv; type := ICMP_REQUEST;
                id := 0x1234; seqno := 1; payload := Some [xaa; xbb];
                payload_len := 2 |} in
  icmp_encode true pkt = Some (buf, 10) /\
  cksum = 0x3b0f /\
  parse_segment (GET_RULE rcv) rcv buf = (0, out) /\
  icmp_parse rcv (iphdr20 ++ buf) = (0, out).
Proof. vm_compute. repeat split; reflexivity. Qed.

(** ** Failure codes *)

Lemma parse_fields_code pkt data : fst (parse_fields pkt data) = 0.
Proof. reflexivity. Qed.

Lemma iff_and_l (P Q : Prop) : P -> (Q <-> P /\ Q).
Proof. tauto. Qed.

Ltac code_case := cbn [fst In]; repeat (split; [lia|]); lia.

(** The result code of [parse_segment], by the first check that fails. *)
Lemma parse_segment_code rule pkt seg :
  let seglen := Z.of_nat (length seg) in
  let first := u8 (seg !!! 0%nat) in
  let checked := use_checksum rule = 0 \/ checksum seg = 0 in
  let r := fst (parse_segment rule pkt seg) in
  In r [0; -1; -2; -5] /\
  (r = -1 <-> seglen < ICMP_HDRLEN) /\
  (r = -2 <-> ICMP_HDRLEN <= seglen /\
              use_checksum rule <> 0 /\ checksum seg <> 0) /\
  (r = -5 <-> ICMP_HDRLEN <= seglen /\ checked /\
              request_type rule <> first /\ reply_type rule <> first) /\
  (r = 0 <-> ICMP_HDRLEN <= seglen /\ checked /\
             (request_type rule = first \/ reply_type rule = first)).
Proof.
  intros seglen first checked r. subst r checked first seglen.
  unfold parse_segment.
  destruct (Z.ltb_spec (Z.of_nat (length seg)) ICMP_HDRLEN) as [H8|H8];
    [code_case|].
  destruct (Z.eqb_spec (use_checksum rule) 0) as [Hu|Hu];
    destruct (Z.eqb_spec (checksum seg) 0) as [Hc|Hc]; cbn [negb andb];
    try code_case.
  all: destruct (Z.eqb_spec (request_type rule) (u8 (seg !!! 0%nat))) as [Hq|Hq].
  all: try (rewrite parse_fields_code; code_case).
  all: destruct (Z.eqb_spec (reply_type rule) (u8 (seg !!! 0%nat))) as [Hp|Hp].
  all: try (rewrite parse_fields_code; code_case).
  all: code_case.
Qed.

(** C4. Failure taxonomy and order: [icmp_parse] returns 0 or one of five
    pairwise distinct codes, and each code is returned exactly when its check
    is the first to fail: -3 for an empty buffer before the strip, -4 for a
    buffer shorter than the announced IP header, -1 for fewer than 8 bytes
    after the strip, -2 for a checksum mismatch under a rule with a checksum,
    -5 for a first byte that is neither the request nor the reply code; 0 is
    returned exactly when all five checks pass. *)
Theorem icmp_parse_failure_taxonomy (pkt : icmp_packet) (data : list byte) :
  let rule := GET_RULE pkt in
  let len := Z.of_nat (length data) in
  let hdrlen := ip_hdrlen (data !!! 0%nat) in
  let seg := if strip_iphdr rule =? 0 then data
             else drop (Z.to_nat hdrlen) data in
  let seglen := Z.of_nat (length seg) in
  let first := u8 (seg !!! 0%nat) in
  let stripped := strip_iphdr rule = 0 \/ (len <> 0 /\ hdrlen <= len) in
  let checked := use_checksum rule = 0 \/ checksum seg = 0 in
  let r := fst (icmp_parse pkt data) in
  NoDup (0 :: parse_errors) /\
  In r (0 :: parse_errors) /\
  (r = -3 <-> strip_iphdr rule <> 0 /\ len = 0) /\
  (r = -4 <-> strip_iphdr rule <> 0 /\ len <> 0 /\ len < hdrlen) /\
  (r = -1 <-> stripped /\ seglen < ICMP_HDRLEN) /\
  (r = -2 <-> stripped /\ ICMP_HDRLEN <= seglen /\
              use_checksum rule <> 0 /\ checksum seg <> 0) /\
  (r = -5 <-> stripped /\ ICMP_HDRLEN <= seglen /\ checked /\
              request_type rule <> first /\ reply_type rule <> first) /\
  (r = 0 <-> stripped /\ ICMP_HDRLEN <= seglen /\ checked /\
             (request_type rule = first \/ reply_type rule = first)).
Proof.
  intros rule len hdrlen seg seglen first stripped checked r.
  split; [apply (bool_decide_unpack _); vm_compute; exact I|].
  pose proof (parse_segment_code rule pkt seg) as Hseg. cbv zeta in Hseg.
  subst r stripped checked first seglen seg. unfold icmp_parse, strip_step.
  fold rule len hdrlen. unfold parse_errors.
  destruct (Z.eqb_spec (strip_iphdr rule) 0) as [Hs|Hs].
  - destruct Hseg as (Hin & H1 & H2 & H5 & H0). cbn [In] in *.
    rewrite H1, H2, H5, H0. clear H1 H2 H5 H0.
    do 3 (split; [lia|]).
    split; [|split; [|split]]; apply iff_and_l; left; exact Hs.
  - destruct (Z.eqb_spec len 0) as [Hl|Hl]; [clear Hseg; code_case|].
    destruct (Z.ltb_spec len hdrlen) as [Hh|Hh]; [clear Hseg; code_case|].
    destruct Hseg as (Hin & H1 & H2 & H5 & H0). cbn [In] in *.
    rewrite H1, H2, H5, H0. clear H1 H2 H5 H0.
    do 3 (split; [lia|]).
    split; [|split; [|split]]; apply iff_and_l; right; split; assumption.
Qed.

(** ** The header strip *)

Lemma ip_hdrlen_nibble b : ip_hdrlen b = 4 * (u8 b mod 16).
Proof.
  unfold ip_hdrlen. change 0x0f with (Z.ones 4).
  rewrite Z.land_ones, Z.shiftl_mul_pow2 by lia.
  change (2 ^ 4) with 16. change (2 ^ 2) with 4. lia.
Qed.

Lemma parse_segment_success rule pkt seg :
  ICMP_HDRLEN <= Z.of_nat (length seg) ->
  use_checksum rule = 0 \/ checksum seg = 0 ->
  request_type rule = u8 (seg !!! 0%nat) \/ reply_type rule = u8 (seg !!! 0%nat) ->
  parse_segment rule pkt seg
  = parse_fields
      (set_type (if request_type rule =? u8 (seg !!! 0%nat)
                 then ICMP_REQUEST else ICMP_REPLY) pkt) seg.
Proof.
  intros Hlen Hck Hty. unfold parse_segment.
  destruct (Z.ltb_spec (Z.of_nat (length seg)) ICMP_HDRLEN); [lia|].
  replace (negb (use_checksum rule =? 0) && negb (checksum seg =? 0)) with false.
  2: { destruct Hck as [-> | ->]; [reflexivity | apply eq_sym, andb_false_r]. }
  destruct (Z.eqb_spec (request_type rule) (u8 (seg !!! 0%nat))); [reflexivity|].
  destruct (Z.eqb_spec (reply_type rule) (u8 (seg !!! 0%nat))); [reflexivity|].
  tauto.
Qed.

(** What the assignments of [parse_fields] leave in the packet. *)
Lemma parse_fields_payload pkt seg :
  ICMP_HDRLEN <= Z.of_nat (length seg) ->
  let out := snd (parse_fields pkt seg) in
  type out = type pkt /\ id out = read16 seg 4 /\ seqno out = read16 seg 6 /\
  peer out = peer pkt /\ peer_len out = peer_len pkt /\
  payload_len out = Z.of_nat (length seg) - ICMP_HDRLEN /\
  payload_data out = drop (Z.to_nat ICMP_HDRLEN) seg /\
  (payload out = None <-> Z.of_nat (length seg) = ICMP_HDRLEN).
Proof.
  intros Hlen. unfold parse_fields. cbn [snd set_payload_len payload_len].
  destruct (Z.eqb_spec (Z.of_nat (length seg) - ICMP_HDRLEN) 0) as [E|E];
    unfold payload_data; cbn [type id seqno peer peer_len payload payload_len
      set_payload set_seqno set_id set_payload_len].
  - repeat split; try reflexivity; try lia.
    symmetry. apply drop_ge. unfold ICMP_HDRLEN in *. lia.
  - repeat split; try reflexivity; try lia; try discriminate.
    rewrite take_take. apply take_ge. rewrite length_drop.
    unfold ICMP_HDRLEN in *. lia.
Qed.

(** C5. IPv4 header strip: the length of the stripped header is four times
    the low nibble of the first received byte; for an IPv4 peer, a 20-byte
    header whose first byte has low nibble 5, followed by a valid segment (8
    bytes or more, checksum zero, request or reply code), parses exactly as
    the bare segment does once the strip step is done, with result 0 and
    type, id, seqno and payload taken from the segment. *)
Theorem ipv4_header_strip (pkt : icmp_packet) (hdr seg : list byte) :
  ICMP_ADDRFAMILY pkt = AF_INET ->
  length hdr = 20%nat ->
  Z.land (u8 (hdr !!! 0%nat)) 0x0f = 5 ->
  ICMP_HDRLEN <= Z.of_nat (length seg) ->
  checksum seg = 0 ->
  ICMP_ECHO = u8 (seg !!! 0%nat) \/ ICMP_ECHOREPLY = u8 (seg !!! 0%nat) ->
  (forall b, ip_hdrlen b = 4 * (u8 b mod 16)) /\
  ip_hdrlen ((hdr ++ seg) !!! 0%nat) = 20 /\
  icmp_parse pkt (hdr ++ seg) = parse_segment (GET_RULE pkt) pkt seg /\
  exists out,
    icmp_parse pkt (hdr ++ seg) = (0, out) /\
    type out = (if ICMP_ECHO =? u8 (seg !!! 0%nat)
                then ICMP_REQUEST else ICMP_REPLY) /\
    id out = read16 seg 4 /\ seqno out = read16 seg 6 /\
    payload_len out = Z.of_nat (length seg) - ICMP_HDRLEN /\
    payload_data out = drop 8 seg.
Proof.
  intros Hfam Hlen Hnib Hseg Hck Hty.
  assert (Hr : GET_RULE pkt = icmpv4) by (unfold GET_RULE; rewrite Hfam; reflexivity).
  assert (Hh : ip_hdrlen (hdr !!! 0%nat) = 20) by (unfold ip_hdrlen; rewrite Hnib; reflexivity).
  assert (Hhdr : is_iphdr hdr).
  { split; [intros ->; discriminate | rewrite Hh, Hlen; reflexivity]. }
  assert (Hparse : icmp_parse pkt (hdr ++ seg) = parse_segment (GET_RULE pkt) pkt seg).
  { unfold icmp_parse. rewrite strip_step_iphdr; [reflexivity | rewrite Hr; discriminate | assumption]. }
  split; [exact ip_hdrlen_nibble|].
  split. { destruct hdr; [discriminate | exact Hh]. }
  split; [exact Hparse|].
  rewrite Hparse, Hr.
  rewrite parse_segment_success by (assumption || (right; assumption)).
  eexists. split; [apply surjective_pairing|].
  pose proof (parse_fields_payload
    (set_type (if request_type icmpv4 =? u8 (seg !!! 0%nat)
               then ICMP_REQUEST else ICMP_REPLY) pkt) seg Hseg) as H.
  cbv zeta in H. destruct H as (Ht & Hi & Hs & _ & _ & Hl & Hd & _).
  repeat split; assumption.
Qed.

Lemma ipv4_header_strip_witness :
  let pkt := mk_packet AF_INET ICMP_REPLY 0 0 [] in
  let hdr := iphdr20 in
  let seg := [x08; x00; x3b; x0f; x12; x34; x00; x01; xaa; xbb] in
  icmp_parse pkt (hdr ++ seg) = parse_segment (GET_RULE pkt) pkt seg /\
  exists out,
    icmp_parse pkt (hdr ++ seg) = (0, out) /\
    type out = (if ICMP_ECHO =? u8 (seg !!! 0%nat)
                then ICMP_REQUEST else ICMP_REPLY) /\
    id out = read16 seg 4 /\ seqno out = read16 seg 6 /\
    payload_len out = Z.of_nat (length seg) - ICMP_HDRLEN /\
    payload_data out = drop 8 seg.
Proof.
  intros pkt hdr seg.
  refine (proj2 (proj2 (ipv4_header_strip pkt hdr seg _ _ _ _ _ _))).
  - reflexivity.
  - reflexivity.
  - reflexivity.
  - vm_compute. discriminate.
  - reflexivity.
  - left. reflexivity.
Defined.

(** C6. Length boundary: for an IPv6 peer every buffer of 7 bytes is
    rejected with -1, the too-short code, and every buffer of exactly 8 bytes
    that starts with the request or reply code parses with result 0, the
    payload pointer [NULL] and the payload length 0. *)
Theorem v6_length_boundary (pkt : icmp_packet) (short exact : list byte) :
  ICMP_ADDRFAMILY pkt = AF_INET6 ->
  length short = 7%nat ->
  length exact = 8%nat ->
  u8 (exact !!! 0%nat) = ICMP6_ECHO_REQUEST \/
  u8 (exact !!! 0%nat) = ICMP6_ECHO_REPLY ->
  icmp_parse pkt short = (-1, pkt) /\
  exists out,
    icmp_parse pkt exact = (0, out) /\
    payload out = None /\ payload_len out = 0 /\
    type out = (if u8 (exact !!! 0%nat) =? ICMP6_ECHO_REQUEST
                then ICMP_REQUEST else ICMP_REPLY) /\
    id out = read16 exact 4 /\ seqno out = read16 exact 6.
Proof.
  intros Hfam H7 H8 Hty.
  assert (Hr : GET_RULE pkt = icmpv6) by (unfold GET_RULE; rewrite Hfam; reflexivity).
  unfold icmp_parse. rewrite Hr, !strip_step_none by reflexivity.
  split.
  - unfold parse_segment. rewrite H7. reflexivity.
  - assert (Hlen : ICMP_HDRLEN <= Z.of_nat (length exact)) by (rewrite H8; reflexivity).
    rewrite parse_segment_success;
      [ | assumption | left; reflexivity
        | destruct Hty as [-> | ->]; [left | right]; reflexivity ].
    eexists. split; [apply surjective_pairing|].
    match goal with |- context [parse_fields ?p _] =>
      pose proof (parse_fields_payload p exact Hlen) as H end.
    cbv zeta in H. destruct H as (Ht & Hi & Hs & _ & _ & Hl & _ & Hp).
    split; [apply Hp; rewrite H8; reflexivity|].
    split; [rewrite Hl, H8; reflexivity|].
    split; [|split; assumption].
    rewrite Ht. cbn [type set_type request_type icmpv6].
    rewrite (Z.eqb_sym (u8 _)). reflexivity.
Qed.

Lemma v6_length_boundary_witness :
  let pkt := mk_packet AF_INET6 ICMP_REQUEST 0 0 [] in
  let short := [x81; x00; x00; x00; x12; x34; x00] in
  let exact := [x81; x00; x00; x00; x12; x34; x00; x01] in
  icmp_parse pkt short = (-1, pkt) /\
  exists out,
    icmp_parse pkt exact = (0, out) /\
    payload out = None /\ payload_len out = 0 /\
    type out = (if u8 (exact !!! 0%nat) =? ICMP6_ECHO_REQUEST
                then ICMP_REQUEST else ICMP_REPLY) /\
    id out = read16 exact 4 /\ seqno out = read16 exact 6.
Proof.
  intros pkt short exact.
  apply (v6_length_boundary pkt short exact); [reflexivity .. | right; reflexivity].
Defined.

Lemma parse_fields_type pkt seg :
  exists out, parse_fields pkt seg = (0, out) /\ type out = type pkt.
Proof.
  unfold parse_fields. eexists. split; [reflexivity|].
  match goal with |- context [if ?c then _ else _] => destruct c end; reflexivity.
Qed.

(** C7. Type rejection: for either family, on a buffer that passes the
    strip, length and checksum checks, a first ICMP byte that is neither the
    family's request code nor its reply code gives -5 and leaves the packet
    alone; the request code gives result 0 with type Request, the reply code
    result 0 with type Reply.  The codes are 8 and 0 for IPv4, 128 and 129
    otherwise. *)
Theorem type_rejection (pkt : icmp_packet) (hdr seg : list byte) :
  let rule := GET_RULE pkt in
  let data := if strip_iphdr rule =? 0 then seg else hdr ++ seg in
  let first := u8 (seg !!! 0%nat) in
  is_iphdr hdr ->
  ICMP_HDRLEN <= Z.of_nat (length seg) ->
  use_checksum rule = 0 \/ checksum seg = 0 ->
  (request_type rule, reply_type rule)
    = (if ICMP_ADDRFAMILY pkt =? AF_INET
       then (ICMP_ECHO, ICMP_ECHOREPLY)
       else (ICMP6_ECHO_REQUEST, ICMP6_ECHO_REPLY)) /\
  (first <> request_type rule -> first <> reply_type rule ->
   icmp_parse pkt data = (-5, pkt)) /\
  (first = request_type rule ->
   exists out, icmp_parse pkt data = (0, out) /\ type out = ICMP_REQUEST) /\
  (first = reply_type rule ->
   exists out, icmp_parse pkt data = (0, out) /\ type out = ICMP_REPLY).
Proof.
  intros rule data first Hhdr Hlen Hck.
  assert (Hparse : icmp_parse pkt data = parse_segment rule pkt seg).
  { unfold icmp_parse, data. fold rule.
    destruct (Z.eqb_spec (strip_iphdr rule) 0) as [E|E].
    - rewrite strip_step_none by assumption. reflexivity.
    - rewrite strip_step_iphdr by assumption. reflexivity. }
  assert (Hne : request_type rule <> reply_type rule).
  { unfold rule. destruct (GET_RULE_cases pkt) as [[_ ->]|[_ ->]]; discriminate. }
  split.
  { unfold rule, GET_RULE. destruct (ICMP_ADDRFAMILY pkt =? AF_INET); reflexivity. }
  rewrite Hparse. fold first in Hne |- *.
  split; [|split].
  - intros Hq Hp. unfold parse_segment. fold first.
    destruct (Z.ltb_spec (Z.of_nat (length seg)) ICMP_HDRLEN); [lia|].
    replace (negb (use_checksum rule =? 0) && negb (checksum seg =? 0)) with false
      by (destruct Hck as [-> | ->]; [reflexivity | apply eq_sym, andb_false_r]).
    destruct (Z.eqb_spec (request_type rule) first); [congruence|].
    destruct (Z.eqb_spec (reply_type rule) first); [congruence|].
    reflexivity.
  - intros Hq. rewrite parse_segment_success by auto. fold first.
    rewrite <- Hq, Z.eqb_refl. apply parse_fields_type.
  - intros Hp. rewrite parse_segment_success by auto. fold first.
    destruct (Z.eqb_spec (request_type rule) first); [congruence|].
    apply parse_fields_type.
Qed.

Lemma type_rejection_witness :
  let seg4 := [x03; x00; xfc; xff; x00; x00; x00; x00] in
  let seg6 := [x80; x00; x00; x00; x00; x2a; x00; x07] in
  icmp_parse (mk_packet AF_INET ICMP_REPLY 0 0 []) (iphdr20 ++ seg4)
    = (-5, mk_packet AF_INET ICMP_REPLY 0 0 []) /\
  exists out,
    icmp_parse (mk_packet AF_INET6 ICMP_REPLY 0 0 []) seg6 = (0, out) /\
    type out = ICMP_REQUEST.
Proof.
  intros seg4 seg6. split.
  - refine (proj1 (proj2 (type_rejection (mk_packet AF_INET ICMP_REPLY 0 0 [])
                            iphdr20 seg4 _ _ _)) _ _).
    + split; [discriminate | reflexivity].
    + vm_compute. discriminate.
    + right. reflexivity.
    + vm_compute. discriminate.
    + vm_compute. discriminate.
  - refine (proj1 (proj2 (proj2 (type_rejection (mk_packet AF_INET6 ICMP_REPLY 0 0 [])
                            iphdr20 seg6 _ _ _))) _).
    + split; [discriminate | reflexivity].
    + vm_compute. discriminate.
    + left. reflexivity.
    + reflexivity.
Defined.

(** C8. Send path: when [calloc] succeeds, [icmp_send] makes one call of the
    send primitive, on the encoded buffer and its length, and returns the
    value the primitive reports, whatever it is; when [calloc] fails,
    [icmp_encode] returns [NULL], no call of the primitive is made and
    [icmp_send] returns 0. *)
Theorem icmp_send_result (sendto : send_call -> Z) (socket : Z)
    (pkt : icmp_packet) (log : list send_call) :
  (exists data,
     let call := {| sc_socket := socket; sc_data := data;
                    sc_len := ICMP_HDRLEN + payload_len pkt;
                    sc_dest := peer pkt; sc_destlen := peer_len pkt |} in
     icmp_encode true pkt = Some (data, ICMP_HDRLEN + payload_len pkt) /\
     icmp_send sendto true socket pkt log = (sendto call, log ++ [call])) /\
  icmp_encode false pkt = None /\
  icmp_send sendto false socket pkt log = (0, log).
Proof.
  split; [|split; reflexivity].
  destruct (icmp_encode true pkt) as [[data len]|] eqn:E; [|discriminate].
  assert (Hlen : len = ICMP_HDRLEN + payload_len pkt).
  { unfold icmp_encode in E. simpl negb in E. cbv iota in E. congruence. }
  subst len. exists data. split; [reflexivity|].
  unfold icmp_send. rewrite E. reflexivity.
Qed.

(** C9. Family dispatch is total: for every packet whose address family is
    not [AF_INET], whatever else it is, the rule is [icmpv6]: no checksum, no
    strip step, codes 128 and 129.  Encoding and parsing behave as they do
    for [AF_INET6], and parsing never returns the checksum or strip codes. *)
Theorem family_dispatch_total (pkt : icmp_packet) (data : list byte)
    (calloc_ok : bool) :
  ICMP_ADDRFAMILY pkt <> AF_INET ->
  GET_RULE pkt = icmpv6 /\
  use_checksum (GET_RULE pkt) = 0 /\ strip_iphdr (GET_RULE pkt) = 0 /\
  request_type (GET_RULE pkt) = ICMP6_ECHO_REQUEST /\
  reply_type (GET_RULE pkt) = ICMP6_ECHO_REPLY /\
  icmp_encode calloc_ok pkt = icmp_encode calloc_ok (with_family AF_INET6 pkt) /\
  (pkt_wf pkt ->
   icmp_encode true pkt
   = Some (wire_header (type_code icmpv6 (type pkt)) 0 (id pkt) (seqno pkt)
           ++ payload_data pkt, ICMP_HDRLEN + payload_len pkt)) /\
  icmp_parse pkt data = parse_segment icmpv6 pkt data /\
  icmp_parse pkt data
  = (fst (icmp_parse (with_family AF_INET6 pkt) data),
     with_family (ICMP_ADDRFAMILY pkt)
       (snd (icmp_parse (with_family AF_INET6 pkt) data))) /\
  ~ In (fst (icmp_parse pkt data)) [-2; -3; -4].
Proof.
  intros Hfam.
  assert (Hr : GET_RULE pkt = icmpv6).
  { destruct (GET_RULE_cases pkt) as [[? _]|[_ ?]]; [contradiction | assumption]. }
  assert (Hp : forall p, GET_RULE p = icmpv6 ->
                 icmp_parse p data = parse_segment icmpv6 p data).
  { intros p Hrp. unfold icmp_parse. rewrite Hrp, strip_step_none; reflexivity. }
  rewrite Hr. repeat (split; [reflexivity|]).
  split. { unfold icmp_encode. rewrite Hr. reflexivity. }
  split.
  { intros (_ & _ & Hn & _ & Hlen). rewrite icmp_encode_wire, Hr by assumption.
    reflexivity. }
  split; [apply Hp, Hr|].
  split.
  - rewrite (Hp pkt Hr), (Hp (with_family AF_INET6 pkt) eq_refl).
    destruct pkt as [[fam addr] pl t i s p n].
    unfold parse_segment, parse_fields. cbn [payload_len set_payload_len].
    repeat match goal with |- context [if ?c then _ else _] => destruct c end;
      reflexivity.
  - rewrite (Hp pkt Hr).
    pose proof (parse_segment_code icmpv6 pkt data) as H. cbv zeta in H.
    destruct H as (Hin & _ & H2 & _). cbn [In use_checksum icmpv6] in *. lia.
Qed.

Lemma family_dispatch_total_witness :
  let pkt := mk_packet 99 ICMP_REQUEST 0x0102 3 [x61] in
  let data := [x81; x00; x00; x00; x00; x2a; x00; x07; x62] in
  ICMP_ADDRFAMILY pkt <> AF_INET /\
  icmp_encode true pkt = icmp_encode true (with_family AF_INET6 pkt) /\
  icmp_encode true pkt
  = Some ([x80; x00; x00; x00; x01; x02; x00; x03; x61], 9) /\
  icmp_parse pkt data = parse_segment icmpv6 pkt data /\
  icmp_parse pkt data = (0, received pkt (mk_packet 99 ICMP_REPLY 0x2a 7 [x62])).
Proof.
  intros pkt data.
  assert (Hfam : ICMP_ADDRFAMILY pkt <> AF_INET) by discriminate.
  destruct (family_dispatch_total pkt data true Hfam)
    as (_ & _ & _ & _ & _ & Henc & _ & Hparse & _).
  split; [exact Hfam|].
  split; [exact Henc|].
  split; [reflexivity|].
  split; [exact Hparse | reflexivity].
Defined.

(** C10. Parse failure atomicity: whenever [icmp_parse] returns a non-zero
    code, the packet is the one the caller supplied, no field written. *)
Theorem parse_failure_atomic (pkt : icmp_packet) (data : list byte) :
  fst (icmp_parse pkt data) <> 0 ->
  snd (icmp_parse pkt data) = pkt.
Proof.
  unfold icmp_parse, parse_segment.
  destruct (strip_step (GET_RULE pkt) data) as [err|seg]; [reflexivity|].
  repeat match goal with |- context [if ?c then _ else _] => destruct c end;
    rewrite ?parse_fields_code; cbn [fst snd]; congruence.
Qed.

Lemma parse_failure_atomic_witness :
  let pkt := mk_packet AF_INET ICMP_REQUEST 0x1111 0x2222 [x01] in
  let data := iphdr20 ++ [x08; x00; x00; x00; x12; x34; x00; x01] in
  fst (icmp_parse pkt data) = -2 /\ snd (icmp_parse pkt data) = pkt.
Proof.
  intros pkt data. split; [reflexivity|].
  apply (parse_failure_atomic pkt data). vm_compute. discriminate.
Defined.

(** * Further properties of the codec *)

(** ** Big-endian 16-bit fields *)

Lemma to_uint16_range z : 0 <= to_uint16 z < 2 ^ 16.
Proof. unfold to_uint16. apply Z.mod_pos_bound. lia. Qed.

Lemma be16_value a b :
  Z.lor (Z.shiftl (u8 a) 8) (u8 b) = 256 * u8 a + u8 b.
Proof. pose proof (u8_range a). pose proof (u8_range b). apply lor_shl8; lia. Qed.

Lemma read16_range data off : 0 <= read16 data off < 2 ^ 16.
Proof. apply to_uint16_range. Qed.

Lemma be16_of_bytes a b :
  let v := to_uint16 (Z.lor (Z.shiftl (u8 a) 8) (u8 b)) in
  hi8 v = a /\ lo8 v = b.
Proof.
  intros v. subst v. rewrite be16_value.
  pose proof (u8_range a) as Ha. pose proof (u8_range b) as Hb.
  unfold hi8, lo8, to_uint16. change (2 ^ 16) with 65536.
  rewrite !(Z.mod_small (256 * u8 a + u8 b) 65536) by lia.
  rewrite Z.shiftr_div_pow2 by lia. change 0xFF with (Z.ones 8).
  rewrite Z.land_ones by lia. change (2 ^ 8) with 256.
  replace ((256 * u8 a + u8 b) / 256) with (u8 a)
    by (Z.div_mod_to_equations; lia).
  replace ((256 * u8 a + u8 b) mod 256) with (u8 b)
    by (Z.div_mod_to_equations; lia).
  split; apply to_uint8_u8.
Qed.

Lemma be16_of_value s :
  0 <= s < 2 ^ 16 ->
  to_uint16 (Z.lor (Z.shiftl (u8 (hi8 s)) 8) (u8 (lo8 s))) = s.
Proof.
  intros Hs. rewrite be16_value, u8_hi8, u8_lo8 by assumption.
  unfold to_uint16. change (2 ^ 16) with 65536 in *.
  Z.div_mod_to_equations. lia.
Qed.

(** X1. Writing a 16-bit value with [write16] inside the buffer and reading it
    back with [read16] gives the value as a [uint16_t]; the buffer keeps its
    length and all its other bytes. *)
Theorem write16_then_read16 (data : list byte) (off : nat) (s : Z) :
  (S off < length data)%nat ->
  read16 (write16 data off s) off = to_uint16 s /\
  length (write16 data off s) = length data /\
  forall i : nat, i <> off -> i <> S off -> write16 data off s !! i = data !! i.
Proof.
  intros Hoff. unfold write16, read16. cbv zeta.
  split; [|split].
  - rewrite list_lookup_total_insert_ne by lia.
    rewrite list_lookup_total_insert_eq by lia.
    rewrite list_lookup_total_insert_eq by (rewrite length_insert; lia).
    pose proof (be16_of_value (to_uint16 s) (to_uint16_range s)) as E.
    unfold hi8, lo8 in E.
    assert (Hid : to_uint16 (to_uint16 s) = to_uint16 s)
      by (unfold to_uint16; apply Z.mod_mod; lia).
    rewrite Hid in E. exact E.
  - rewrite !length_insert. reflexivity.
  - intros i H1 H2. rewrite !list_lookup_insert_ne by lia. reflexivity.
Qed.

Lemma write16_then_read16_witness :
  read16 (write16 [x00; x00; x00; x00] 1 0x1ABCD) 1 = 0xABCD /\
  write16 [x00; x00; x00; x00] 1 0x1ABCD = [x00; xab; xcd; x00].
Proof.
  split; [|reflexivity].
  apply (write16_then_read16 [x00; x00; x00; x00] 1 0x1ABCD). simpl. lia.
Defined.

(** ** The checksum over parts of a buffer *)

Lemma word_sum_app a b :
  Nat.even (length a) = true -> word_sum (a ++ b) = word_sum a + word_sum b.
Proof.
  induction a as [|x|x y l IH] using list_pair_ind; intros He.
  - reflexivity.
  - discriminate.
  - change ((x :: y :: l) ++ b) with (x :: y :: (l ++ b)).
    cbn [word_sum]. rewrite IH by exact He. lia.
Qed.

Lemma checksum_loop_range data acc :
  0 <= acc < 2 ^ 32 -> 0 <= checksum_loop data acc < 2 ^ 32.
Proof.
  intros H. rewrite checksum_loop_sum by assumption.
  unfold to_uint32. apply Z.mod_pos_bound. lia.
Qed.

(** X2. The checksum loop composes at even offsets: over [a ++ b] with [a] of
    even length it is the loop over [b] started from the accumulator that
    [a] leaves. *)
Theorem checksum_loop_app (a b : list byte) (acc : Z) :
  Nat.even (length a) = true ->
  0 <= acc < 2 ^ 32 ->
  checksum_loop (a ++ b) acc = checksum_loop b (checksum_loop a acc) /\
  checksum (a ++ b) = checksum_fold (checksum_loop b (checksum_loop a 0)).
Proof.
  intros He Hacc.
  assert (H : forall c, 0 <= c < 2 ^ 32 ->
            checksum_loop (a ++ b) c = checksum_loop b (checksum_loop a c)).
  { intros c Hc.
    rewrite (checksum_loop_sum b) by (apply checksum_loop_range; assumption).
    rewrite !checksum_loop_sum by assumption.
    rewrite word_sum_app by assumption.
    unfold to_uint32. rewrite Zplus_mod_idemp_l. f_equal. lia. }
  split; [apply H; assumption|].
  unfold checksum. rewrite H by lia. reflexivity.
Qed.

Lemma checksum_loop_app_witness :
  checksum_loop ([x08; x00] ++ [x12; x34; xaa]) 7
  = checksum_loop [x12; x34; xaa] (checksum_loop [x08; x00] 7).
Proof.
  apply (checksum_loop_app [x08; x00] [x12; x34; xaa] 7); [reflexivity | lia].
Defined.

(** X3. The checksum does not see the order of the 16-bit words: two
    neighbouring blocks of even length at an even offset may be exchanged. *)
Theorem checksum_word_order (pre w1 w2 post : list byte) :
  Nat.even (length pre) = true ->
  Nat.even (length w1) = true ->
  Nat.even (length w2) = true ->
  checksum (pre ++ w1 ++ w2 ++ post) = checksum (pre ++ w2 ++ w1 ++ post).
Proof.
  intros Hp H1 H2. rewrite !checksum_word_sum.
  repeat rewrite word_sum_app by assumption.
  f_equal. unfold to_uint32. f_equal. lia.
Qed.

Lemma checksum_word_order_witness :
  checksum ([x08; x00] ++ [x12; x34] ++ [x00; x01] ++ [xaa])
  = checksum ([x08; x00] ++ [x00; x01] ++ [x12; x34] ++ [xaa]).
Proof.
  apply (checksum_word_order [x08; x00] [x12; x34] [x00; x01] [xaa]); reflexivity.
Defined.

(** ** Changing one byte *)

Lemma u8_inj a b : u8 a = u8 b -> a = b.
Proof. intros H. rewrite <- (to_uint8_u8 a), <- (to_uint8_u8 b), H. reflexivity. Qed.

Lemma word_sum_insert data : forall (i : nat) b,
  (i < length data)%nat ->
  word_sum (<[i:=b]> data)
  = word_sum data + (u8 b - u8 (data !!! i)) * (if Nat.even i then 256 else 1).
Proof.
  induction data as [|a|a c l IH] using list_pair_ind; intros i b Hi.
  - simpl in Hi. lia.
  - destruct i as [|i]; [|simpl in Hi; lia]. clear Hi.
    cbn [insert list_insert word_sum lookup_total list_lookup_total Nat.even]. lia.
  - destruct i as [|[|i]].
    + clear Hi IH. cbn [insert list_insert word_sum lookup_total list_lookup_total Nat.even]. lia.
    + cbn [insert list_insert word_sum lookup_total list_lookup_total Nat.even]. lia.
    + change (<[S (S i):=b]> (a :: c :: l)) with (a :: c :: <[i:=b]> l).
      change ((a :: c :: l) !!! S (S i)) with (l !!! i).
      change (Nat.even (S (S i))) with (Nat.even i).
      cbn [word_sum]. rewrite IH by (simpl in Hi; lia).
      destruct (Nat.even i); lia.
Qed.

Lemma word_sum_range data :
  Z.of_nat (length data) <= 2 ^ 17 -> 0 <= word_sum data < 2 ^ 32.
Proof.
  intros Hlen. pose proof (word_sum_bound data). pose proof (word_sum_nonneg data).
  change (2 ^ 17) with 131072 in Hlen. change (2 ^ 32) with 4294967296. lia.
Qed.

Lemma ones_complement_sum_eq s t :
  0 <= s -> 0 <= t ->
  ones_complement_sum s = ones_complement_sum t ->
  (s = 0 /\ t = 0) \/ (0 < s /\ 0 < t /\ (s - t) mod 65535 = 0).
Proof.
  intros Hs Ht. unfold ones_complement_sum.
  destruct (Z.eqb_spec s 0) as [->|Hs0]; destruct (Z.eqb_spec t 0) as [->|Ht0].
  - auto.
  - intros H. pose proof (Z.mod_pos_bound (t - 1) 65535 ltac:(lia)). lia.
  - intros H. pose proof (Z.mod_pos_bound (s - 1) 65535 ltac:(lia)). lia.
  - intros H. right. split; [lia|]. split; [lia|].
    Z.div_mod_to_equations. lia.
Qed.

(** X4. On a buffer of at most 2^17 bytes, replacing one byte by a different
    value changes the checksum. *)
Theorem checksum_detects_byte_change (data : list byte) (i : nat) (b : byte) :
  Z.of_nat (length data) <= 2 ^ 17 ->
  (i < length data)%nat ->
  data !!! i <> b ->
  checksum (<[i:=b]> data) <> checksum data.
Proof.
  intros Hlen Hi Hb.
  rewrite !checksum_rfc1071 by (rewrite ?length_insert; assumption).
  pose proof (word_sum_range data Hlen) as Hs.
  pose proof (word_sum_range (<[i:=b]> data)) as Hs'.
  rewrite length_insert in Hs'. specialize (Hs' Hlen).
  rewrite word_sum_insert in * by assumption.
  pose proof (u8_range b) as Rb. pose proof (u8_range (data !!! i)) as Ra.
  assert (Hd : u8 b - u8 (data !!! i) <> 0).
  { intros E. apply Hb. apply u8_inj. lia. }
  intros E.
  assert (E' : ones_complement_sum
                 (word_sum data + (u8 b - u8 (data !!! i))
                                  * (if Nat.even i then 256 else 1))
               = ones_complement_sum (word_sum data)) by lia.
  apply ones_complement_sum_eq in E'; [|lia|lia].
  destruct (Nat.even i); Z.div_mod_to_equations; lia.
Qed.

Lemma checksum_detects_byte_change_witness :
  checksum (<[5%nat:=x35]> [x08; x00; x3b; x0f; x12; x34; x00; x01; xaa; xbb])
  <> checksum [x08; x00; x3b; x0f; x12; x34; x00; x01; xaa; xbb].
Proof.
  apply (checksum_detects_byte_change
           [x08; x00; x3b; x0f; x12; x34; x00; x01; xaa; xbb] 5 x35).
  - vm_compute. discriminate.
  - simpl. lia.
  - discriminate.
Defined.

(** X5. For an IPv4 peer, a buffer that parses with result 0 is rejected with
    -2, the packet untouched, once any one byte of its segment (of at most
    2^17 bytes) is replaced by a different value. *)
Theorem v4_parse_detects_byte_change (pkt out : icmp_packet)
    (hdr seg : list byte) (i : nat) (b : byte) :
  ICMP_ADDRFAMILY pkt = AF_INET ->
  is_iphdr hdr ->
  Z.of_nat (length seg) <= 2 ^ 17 ->
  (i < length seg)%nat ->
  seg !!! i <> b ->
  icmp_parse pkt (hdr ++ seg) = (0, out) ->
  icmp_parse pkt (hdr ++ <[i:=b]> seg) = (-2, pkt).
Proof.
  intros Hfam Hhdr Hlen Hi Hb Hok.
  assert (Hr : GET_RULE pkt = icmpv4) by (unfold GET_RULE; rewrite Hfam; reflexivity).
  unfold icmp_parse in *. rewrite Hr in *.
  rewrite strip_step_iphdr in * by (assumption || discriminate).
  pose proof (parse_segment_code icmpv4 pkt seg) as H. cbv zeta in H.
  destruct H as (_ & _ & _ & _ & H0). rewrite Hok in H0. cbn [fst] in H0.
  destruct (proj1 H0 eq_refl) as (H8 & [Hu|Hck] & _); [discriminate|].
  pose proof (checksum_detects_byte_change seg i b Hlen Hi Hb) as Hne.
  rewrite Hck in Hne. unfold parse_segment. rewrite length_insert.
  destruct (Z.ltb_spec (Z.of_nat (length seg)) ICMP_HDRLEN); [lia|].
  destruct (Z.eqb_spec (checksum (<[i:=b]> seg)) 0); [contradiction|].
  reflexivity.
Qed.

Lemma v4_parse_detects_byte_change_witness :
  let pkt := mk_packet AF_INET ICMP_REPLY 0 0 [] in
  let seg := [x08; x00; x3b; x0f; x12; x34; x00; x01; xaa; xbb] in
  icmp_parse pkt (iphdr20 ++ <[9%nat:=xba]> seg) = (-2, pkt).
Proof.
  intros pkt seg.
  refine (v4_parse_detects_byte_change pkt _ iphdr20 seg 9 xba _ _ _ _ _ _).
  - reflexivity.
  - split; [discriminate | reflexivity].
  - vm_compute. discriminate.
  - simpl. lia.
  - discriminate.
  - reflexivity.
Defined.

(** ** The checksum as a one's-complement sum *)

(** X6. On a buffer of at most 2^17 bytes [checksum] is 65535 minus the
    one's-complement sum of the words, and it is zero exactly when the plain
    word sum is a non-zero multiple of 65535. *)
Theorem checksum_is_ones_complement (data : list byte) :
  Z.of_nat (length data) <= 2 ^ 17 ->
  checksum data = 65535 - ones_complement_sum (word_sum data) /\
  (checksum data = 0 <->
   word_sum data <> 0 /\ word_sum data mod 65535 = 0).
Proof.
  intros Hlen. pose proof (checksum_rfc1071 data Hlen) as E.
  split; [exact E|]. rewrite E. clear E.
  pose proof (word_sum_nonneg data) as Hs. unfold ones_complement_sum.
  destruct (Z.eqb_spec (word_sum data) 0) as [->|Hne]; [lia|].
  Z.div_mod_to_equations. lia.
Qed.

Lemma checksum_is_ones_complement_witness :
  checksum [x08; x00; x3b; x0f; x12; x34; x00; x01; xaa; xbb] = 0 /\
  word_sum [x08; x00; x3b; x0f; x12; x34; x00; x01; xaa; xbb] = 65535.
Proof.
  split; [|reflexivity].
  apply (checksum_is_ones_complement
           [x08; x00; x3b; x0f; x12; x34; x00; x01; xaa; xbb]).
  - vm_compute. discriminate.
  - vm_compute. split; [discriminate | reflexivity].
Defined.

(** ** What a successful parse leaves behind *)

Lemma ip_hdrlen_range b : 0 <= ip_hdrlen b <= 60.
Proof.
  rewrite ip_hdrlen_nibble.
  pose proof (Z.mod_pos_bound (u8 b) 16 ltac:(lia)). lia.
Qed.

Lemma strip_step_inv rule data seg :
  strip_step rule data = inr seg ->
  exists hdr, data = hdr ++ seg /\
    (strip_iphdr rule = 0 -> hdr = []) /\
    (strip_iphdr rule <> 0 ->
     data <> [] /\ Z.of_nat (length hdr) = ip_hdrlen (data !!! 0%nat)).
Proof.
  unfold strip_step.
  destruct (Z.eqb_spec (strip_iphdr rule) 0) as [Hs|Hs].
  - intros [= <-]. exists []. repeat split; try reflexivity; contradiction.
  - destruct (Z.eqb_spec (Z.of_nat (length data)) 0) as [|Hl]; [discriminate|].
    destruct (Z.ltb_spec (Z.of_nat (length data)) (ip_hdrlen (data !!! 0%nat)))
      as [|Hh]; [discriminate|].
    intros [= <-]. exists (take (Z.to_nat (ip_hdrlen (data !!! 0%nat))) data).
    pose proof (ip_hdrlen_range (data !!! 0%nat)).
    split; [symmetry; apply take_drop|].
    split; [contradiction|]. intros _.
    split; [intros ->; simpl in Hl; lia|].
    rewrite length_take. lia.
Qed.

Lemma icmp_parse_success_inv pkt data out :
  icmp_parse pkt data = (0, out) ->
  let rule := GET_RULE pkt in
  exists hdr seg,
    data = hdr ++ seg /\
    strip_step rule data = inr seg /\
    ICMP_HDRLEN <= Z.of_nat (length seg) /\
    (use_checksum rule = 0 \/ checksum seg = 0) /\
    (request_type rule = u8 (seg !!! 0%nat) \/
     reply_type rule = u8 (seg !!! 0%nat)) /\
    parse_fields
      (set_type (if request_type rule =? u8 (seg !!! 0%nat)
                 then ICMP_REQUEST else ICMP_REPLY) pkt) seg = (0, out).
Proof.
  intros Hok rule. unfold icmp_parse in Hok. fold rule in Hok.
  destruct (strip_step rule data) as [err|seg] eqn:Hstrip.
  - exfalso. unfold strip_step in Hstrip.
    repeat match type of Hstrip with
           | context [if ?c then _ else _] => destruct c
           end; congruence.
  - destruct (strip_step_inv rule data seg Hstrip) as (hdr & Hd & _).
    exists hdr, seg. split; [exact Hd|]. split; [reflexivity|].
    pose proof (parse_segment_code rule pkt seg) as H. cbv zeta in H.
    destruct H as (_ & _ & _ & _ & H0). rewrite Hok in H0. cbn [fst] in H0.
    destruct (proj1 H0 eq_refl) as (H8 & Hck & Hty).
    repeat (split; [assumption|]).
    rewrite <- parse_segment_success by assumption. exact Hok.
Qed.

(** X7. [icmp_parse] never writes the peer address or [peer_len], whatever it
    returns; the packet selects the same rule afterwards. *)
Theorem icmp_parse_keeps_peer (pkt : icmp_packet) (data : list byte) :
  peer (snd (icmp_parse pkt data)) = peer pkt /\
  peer_len (snd (icmp_parse pkt data)) = peer_len pkt /\
  GET_RULE (snd (icmp_parse pkt data)) = GET_RULE pkt.
Proof.
  assert (H : peer (snd (icmp_parse pkt data)) = peer pkt /\
              peer_len (snd (icmp_parse pkt data)) = peer_len pkt).
  { unfold icmp_parse, parse_segment, parse_fields.
    cbn [payload_len set_payload_len].
    destruct (strip_step (GET_RULE pkt) data) as [err|seg]; [split; reflexivity|].
    repeat match goal with |- context [if ?c then _ else _] => destruct c end;
      split; reflexivity. }
  destruct H as [Hp Hl]. repeat split; try assumption.
  unfold GET_RULE, ICMP_ADDRFAMILY. rewrite Hp. reflexivity.
Qed.

(** X8. After [icmp_parse] returned 0 on a buffer of at most [INT_MAX] bytes the
    packet is well-formed, its payload pointer is [NULL] exactly when
    [payload_len] is 0, and header plus payload fit the buffer. *)
Theorem icmp_parse_success_wf (pkt out : icmp_packet) (data : list byte) :
  Z.of_nat (length data) <= INT_MAX ->
  icmp_parse pkt data = (0, out) ->
  pkt_wf out /\
  (payload out = None <-> payload_len out = 0) /\
  ICMP_HDRLEN + payload_len out <= Z.of_nat (length data).
Proof.
  intros Hmax Hok.
  destruct (icmp_parse_success_inv pkt data out Hok) as
    (hdr & seg & Hd & _ & H8 & _ & _ & Hf).
  match type of Hf with parse_fields ?p _ = _ =>
    pose proof (parse_fields_payload p seg H8) as H end.
  cbv zeta in H. rewrite Hf in H. cbn [snd] in H.
  destruct H as (_ & Hi & Hs & _ & _ & Hl & Hpd & Hnone).
  assert (Hlen : Z.of_nat (length data) = Z.of_nat (length hdr) + Z.of_nat (length seg))
    by (rewrite Hd, length_app; lia).
  split; [|split].
  - unfold pkt_wf. rewrite Hi, Hs, Hl, Hpd, length_drop.
    pose proof (read16_range seg 4). pose proof (read16_range seg 6).
    unfold ICMP_HDRLEN in *. lia.
  - rewrite Hnone, Hl. lia.
  - rewrite Hl. lia.
Qed.

Lemma icmp_parse_success_wf_witness :
  let pkt := mk_packet AF_INET ICMP_REPLY 0 0 [] in
  let data := iphdr20 ++ [x08; x00; x3b; x0f; x12; x34; x00; x01; xaa; xbb] in
  let out := snd (icmp_parse pkt data) in
  pkt_wf out /\
  (payload out = None <-> payload_len out = 0) /\
  ICMP_HDRLEN + payload_len out <= Z.of_nat (length data).
Proof.
  intros pkt data out.
  apply (icmp_parse_success_wf pkt out data).
  - vm_compute. discriminate.
  - reflexivity.
Defined.

(** ** Parsing, then encoding again *)

Lemma classified_code rule (first : Z) :
  request_type rule = first \/ reply_type rule = first ->
  type_code rule (if request_type rule =? first then ICMP_REQUEST else ICMP_REPLY)
  = first.
Proof.
  intros H. destruct (Z.eqb_spec (request_type rule) first) as [E|E]; simpl.
  - exact E.
  - destruct H; [contradiction | assumption].
Qed.

(** X9. Parse, then encode: after [icmp_parse] returned 0, encoding the parsed
    packet gives a buffer as long as the parsed segment, equal to it in the
    type byte and from offset 4 on, with code byte 0 and, under a rule with
    a checksum, summing to zero. *)
Theorem parse_then_encode (pkt out : icmp_packet) (data : list byte) :
  icmp_parse pkt data = (0, out) ->
  exists hdr seg enc,
    data = hdr ++ seg /\
    (strip_iphdr (GET_RULE pkt) = 0 -> hdr = []) /\
    icmp_encode true out = Some (enc, Z.of_nat (length seg)) /\
    length enc = length seg /\
    enc !! 0%nat = seg !! 0%nat /\
    enc !! 1%nat = Some x00 /\
    drop 4 enc = drop 4 seg /\
    (use_checksum (GET_RULE pkt) <> 0 -> checksum enc = 0).
Proof.
  intros Hok.
  destruct (icmp_parse_success_inv pkt data out Hok) as
    (hdr & seg & Hd & Hstrip & H8 & _ & Hty & Hf).
  destruct (strip_step_inv _ _ _ Hstrip) as (hdr' & Hd' & Hnil & _).
  assert (hdr' = hdr) as -> by (apply (app_inv_tail seg); congruence).
  exists hdr, seg, (wire (GET_RULE out) out).
  match type of Hf with parse_fields ?p _ = _ =>
    pose proof (parse_fields_payload p seg H8) as H end.
  cbv zeta in H. rewrite Hf in H. cbn [snd] in H.
  destruct H as (Ht & Hi & Hs & Hp & _ & Hl & Hpd & _).
  assert (Hr : GET_RULE out = GET_RULE pkt)
    by (unfold GET_RULE, ICMP_ADDRFAMILY; rewrite Hp; reflexivity).
  assert (Hpl : Z.of_nat (length (payload_data out)) = payload_len out).
  { rewrite Hpd, Hl, length_drop. unfold ICMP_HDRLEN in *. lia. }
  split; [exact Hd|]. split; [exact Hnil|].
  split.
  { rewrite icmp_encode_wire by (assumption || lia). do 2 f_equal. lia. }
  split.
  { apply Nat2Z.inj. rewrite wire_length, Hpl, Hl. lia. }
  assert (Hw : take 2 (wire (GET_RULE out) out) = [seg !!! 0%nat; x00] /\
               drop 4 (wire (GET_RULE out) out) = drop 4 seg).
  { unfold wire, wire_header. cbn [app take drop].
    rewrite Ht, Hi, Hs, Hpd, Hr. cbn [type set_type].
    rewrite classified_code by assumption. rewrite to_uint8_u8.
    destruct seg as [|s0 [|s1 [|s2 [|s3 [|s4 [|s5 [|s6 [|s7 rest]]]]]]]];
      try (simpl in H8; unfold ICMP_HDRLEN in H8; lia).
    unfold read16. cbn [lookup_total list_lookup_total drop Z.to_nat ICMP_HDRLEN
                          Pos.to_nat Pos.iter_op Nat.add].
    destruct (be16_of_bytes s4 s5) as [-> ->].
    destruct (be16_of_bytes s6 s7) as [-> ->].
    split; reflexivity. }
  destruct Hw as [Hw2 Hw4].
  assert (Hs0 : seg !! 0%nat = Some (seg !!! 0%nat)).
  { apply list_lookup_lookup_total_lt. unfold ICMP_HDRLEN in H8. lia. }
  split.
  { rewrite <- (lookup_take_lt _ 2 0) by lia. rewrite Hw2, Hs0. reflexivity. }
  split.
  { rewrite <- (lookup_take_lt _ 2 1) by lia. rewrite Hw2. reflexivity. }
  split; [exact Hw4|].
  intros Hc. apply checksum_wire. rewrite Hr. exact Hc.
Qed.

Lemma parse_then_encode_witness :
  let pkt := mk_packet AF_INET6 ICMP_REPLY 0 0 [] in
  let data := [x80; x07; xde; xad; x12; x34; x00; x01; xaa] in
  icmp_parse pkt data
    = (0, received pkt (mk_packet AF_INET6 ICMP_REQUEST 0x1234 1 [xaa])) /\
  icmp_encode true (snd (icmp_parse pkt data))
    = Some ([x80; x00; x00; x00; x12; x34; x00; x01; xaa], 9) /\
  exists hdr seg enc,
    data = hdr ++ seg /\
    (strip_iphdr (GET_RULE pkt) = 0 -> hdr = []) /\
    icmp_encode true (snd (icmp_parse pkt data))
      = Some (enc, Z.of_nat (length seg)) /\
    length enc = length seg /\
    enc !! 0%nat = seg !! 0%nat /\
    enc !! 1%nat = Some x00 /\
    drop 4 enc = drop 4 seg /\
    (use_checksum (GET_RULE pkt) <> 0 -> checksum enc = 0).
Proof.
  intros pkt data. split; [reflexivity|]. split; [reflexivity|].
  apply (parse_then_encode pkt (snd (icmp_parse pkt data)) data). reflexivity.
Defined.

(** ** The layout of the encoded buffer, field by field *)

(** X10. The encoded buffer field by field: 8 + [payload_len] bytes, the type
    code, a zero code byte, checksum, id and seqno big-endian at offsets 2,
    4 and 6, then the payload. *)
Theorem icmp_encode_layout (pkt : icmp_packet) :
  pkt_wf pkt ->
  exists enc,
    icmp_encode true pkt = Some (enc, ICMP_HDRLEN + payload_len pkt) /\
    Z.of_nat (length enc) = ICMP_HDRLEN + payload_len pkt /\
    u8 (enc !!! 0%nat) = type_code (GET_RULE pkt) (type pkt) /\
    enc !!! 1%nat = x00 /\
    read16 enc 2 = wire_checksum (GET_RULE pkt) pkt /\
    read16 enc 4 = id pkt /\
    read16 enc 6 = seqno pkt /\
    drop 8 enc = payload_data pkt.
Proof.
  intros Hwf. pose proof Hwf as (Hid & Hseq & Hn & _ & Hlen).
  exists (wire (GET_RULE pkt) pkt).
  split; [apply icmp_encode_wire; assumption|].
  split; [rewrite wire_length; lia|].
  unfold wire, wire_header.
  split; [apply type_code_byte|].
  split; [reflexivity|].
  assert (Hck : 0 <= wire_checksum (GET_RULE pkt) pkt < 2 ^ 16).
  { unfold wire_checksum. destruct (use_checksum (GET_RULE pkt) =? 0);
      [lia | apply checksum_range]. }
  split; [exact (read16_bytes _ [_; _] _ 2 Hck eq_refl)|].
  split; [exact (read16_bytes _ [_; _; _; _] _ 4 Hid eq_refl)|].
  split; [exact (read16_bytes _ [_; _; _; _; _; _] _ 6 Hseq eq_refl)|].
  reflexivity.
Qed.

Lemma icmp_encode_layout_witness :
  let pkt := mk_packet AF_INET6 ICMP_REPLY 0xCAFE 0x0102 [x01; x02; x03] in
  exists enc,
    icmp_encode true pkt = Some (enc, ICMP_HDRLEN + payload_len pkt) /\
    Z.of_nat (length enc) = ICMP_HDRLEN + payload_len pkt /\
    u8 (enc !!! 0%nat) = type_code (GET_RULE pkt) (type pkt) /\
    enc !!! 1%nat = x00 /\
    read16 enc 2 = wire_checksum (GET_RULE pkt) pkt /\
    read16 enc 4 = id pkt /\
    read16 enc 6 = seqno pkt /\
    drop 8 enc = payload_data pkt.
Proof.
  intros pkt. apply (icmp_encode_layout pkt).
  vm_compute. intuition discriminate.
Defined.

(** ** The strip step at its edges *)

(** X11. The strip step sets no minimum header length: for an IPv4 peer an
    encoded echo reply without IP header announces length 0 and parses as it
    stands, an encoded echo request without IP header announces length 32
    and is rejected with -4 when its payload has fewer than 24 bytes. *)
Theorem v4_bare_segment (pkt rcv : icmp_packet) :
  pkt_wf pkt ->
  ICMP_ADDRFAMILY pkt = AF_INET ->
  ICMP_ADDRFAMILY rcv = AF_INET ->
  exists enc,
    icmp_encode true pkt = Some (enc, ICMP_HDRLEN + payload_len pkt) /\
    (type pkt = ICMP_REPLY -> icmp_parse rcv enc = (0, received rcv pkt)) /\
    (type pkt = ICMP_REQUEST -> payload_len pkt < 24 ->
     icmp_parse rcv enc = (-4, rcv)).
Proof.
  intros Hwf Hfam Hrcv. pose proof Hwf as (_ & _ & Hn & _ & Hlen).
  assert (Hr : GET_RULE pkt = icmpv4) by (unfold GET_RULE; rewrite Hfam; reflexivity).
  assert (Hr' : GET_RULE rcv = icmpv4) by (unfold GET_RULE; rewrite Hrcv; reflexivity).
  exists (wire (GET_RULE pkt) pkt).
  split; [apply icmp_encode_wire; assumption|].
  pose proof (wire_length (GET_RULE pkt) pkt) as Hwl. rewrite Hlen in Hwl.
  unfold icmp_parse, strip_step. rewrite Hr'. cbn [strip_iphdr icmpv4 Z.eqb].
  rewrite Hwl.
  destruct (Z.eqb_spec (ICMP_HDRLEN + payload_len pkt) 0) as [E|_];
    [unfold ICMP_HDRLEN in E; lia|].
  assert (H0 : wire (GET_RULE pkt) pkt !!! 0%nat
               = to_uint8 (type_code icmpv4 (type pkt))).
  { rewrite Hr. reflexivity. }
  rewrite H0. split.
  - intros Ht. rewrite Ht.
    change (ip_hdrlen (to_uint8 (type_code icmpv4 ICMP_REPLY))) with 0.
    destruct (Z.ltb_spec (ICMP_HDRLEN + payload_len pkt) 0) as [E|_];
      [unfold ICMP_HDRLEN in E; lia|].
    change (drop (Z.to_nat 0) ?l) with l.
    rewrite <- Hr'. apply parse_segment_wire; [assumption | congruence].
  - intros Ht Hshort. rewrite Ht.
    change (ip_hdrlen (to_uint8 (type_code icmpv4 ICMP_REQUEST))) with 32.
    destruct (Z.ltb_spec (ICMP_HDRLEN + payload_len pkt) 32) as [_|E];
      [reflexivity | unfold ICMP_HDRLEN in E; lia].
Qed.

Lemma v4_bare_segment_witness :
  let rcv := mk_packet AF_INET ICMP_REQUEST 0 0 [] in
  let reply := mk_packet AF_INET ICMP_REPLY 0x1234 1 [xaa; xbb] in
  let request := mk_packet AF_INET ICMP_REQUEST 0x1234 1 [xaa; xbb] in
  icmp_parse rcv [x00; x00; x43; x0f; x12; x34; x00; x01; xaa; xbb]
    = (0, received rcv reply) /\
  icmp_parse rcv [x08; x00; x3b; x0f; x12; x34; x00; x01; xaa; xbb]
    = (-4, rcv).
Proof.
  intros rcv reply request.
  assert (Hw1 : pkt_wf reply) by (vm_compute; intuition discriminate).
  assert (Hw2 : pkt_wf request) by (vm_compute; intuition discriminate).
  destruct (v4_bare_segment reply rcv Hw1 eq_refl eq_refl) as (e1 & He1 & Hrep & _).
  destruct (v4_bare_segment request rcv Hw2 eq_refl eq_refl) as (e2 & He2 & _ & Hreq).
  injection He1 as <-. injection He2 as <-.
  split; [exact (Hrep eq_refl) | apply (Hreq eq_refl); reflexivity].
Defined.

(** X12. The announced header length is at most 60, so on a buffer of 68 bytes
    or more [icmp_parse] returns 0, -2 or -5, never a length error. *)
Theorem icmp_parse_long_buffer (pkt : icmp_packet) (data : list byte) :
  68 <= Z.of_nat (length data) ->
  (forall b, 0 <= ip_hdrlen b <= 60) /\
  In (fst (icmp_parse pkt data)) [0; -2; -5].
Proof.
  intros Hlen. split; [exact ip_hdrlen_range|].
  unfold icmp_parse.
  destruct (strip_step (GET_RULE pkt) data) as [err|seg] eqn:Hstrip.
  - exfalso. unfold strip_step in Hstrip.
    pose proof (ip_hdrlen_range (data !!! 0%nat)).
    destruct (strip_iphdr (GET_RULE pkt) =? 0); [discriminate|].
    destruct (Z.eqb_spec (Z.of_nat (length data)) 0); [lia|].
    destruct (Z.ltb_spec (Z.of_nat (length data)) (ip_hdrlen (data !!! 0%nat)));
      [lia | discriminate].
  - destruct (strip_step_inv _ _ _ Hstrip) as (hdr & Hd & Hnil & Hh).
    assert (Hseg : ICMP_HDRLEN <= Z.of_nat (length seg)).
    { assert (Z.of_nat (length data) = Z.of_nat (length hdr) + Z.of_nat (length seg))
        by (rewrite Hd, length_app; lia).
      pose proof (ip_hdrlen_range (data !!! 0%nat)).
      unfold ICMP_HDRLEN.
      destruct (Z.eq_dec (strip_iphdr (GET_RULE pkt)) 0) as [E|E].
      - rewrite (Hnil E) in *. simpl in *. lia.
      - destruct (Hh E) as [_ Hl]. lia. }
    pose proof (parse_segment_code (GET_RULE pkt) pkt seg) as H. cbv zeta in H.
    destruct H as (Hin & H1 & _). cbn [In] in *. lia.
Qed.

Lemma icmp_parse_long_buffer_witness :
  In (fst (icmp_parse (mk_packet AF_INET ICMP_REPLY 0 0 [])
                      (xff :: replicate 67 x00))) [0; -2; -5].
Proof.
  apply (icmp_parse_long_buffer (mk_packet AF_INET ICMP_REPLY 0 0 [])
                                (xff :: replicate 67 x00)).
  vm_compute. discriminate.
Defined.

(** ** What the parser does not look at *)

(** X13. For a family other than [AF_INET], [icmp_parse] does not look at bytes
    1 to 3 of the buffer (code and checksum). *)
Theorem v6_parse_ignores_code_and_checksum (pkt : icmp_packet)
    (b0 b1 b2 b3 c1 c2 c3 : byte) (rest : list byte) :
  ICMP_ADDRFAMILY pkt <> AF_INET ->
  icmp_parse pkt (b0 :: b1 :: b2 :: b3 :: rest)
  = icmp_parse pkt (b0 :: c1 :: c2 :: c3 :: rest).
Proof.
  intros Hfam.
  assert (Hr : GET_RULE pkt = icmpv6).
  { destruct (GET_RULE_cases pkt) as [[? _]|[_ ?]]; [contradiction | assumption]. }
  unfold icmp_parse. rewrite Hr, !strip_step_none by reflexivity.
  unfold parse_segment, parse_fields, read16.
  cbn [use_checksum icmpv6 Z.eqb negb andb length lookup_total list_lookup_total
       drop Z.to_nat ICMP_HDRLEN Pos.to_nat Pos.iter_op Nat.add].
  reflexivity.
Qed.

Lemma v6_parse_ignores_code_and_checksum_witness :
  let pkt := mk_packet AF_INET6 ICMP_REPLY 0 0 [] in
  icmp_parse pkt [x80; x07; xde; xad; x12; x34; x00; x01]
  = icmp_parse pkt [x80; x00; x00; x00; x12; x34; x00; x01].
Proof.
  intros pkt.
  apply (v6_parse_ignores_code_and_checksum pkt x80 x07 xde xad x00 x00 x00).
  discriminate.
Defined.

(** X14. For an IPv4 peer the IP header counts by its length only: any two
    headers that announce their own length give the same result in front of
    the same segment, the result of parsing the segment. *)
Theorem v4_parse_ignores_header_content (pkt : icmp_packet)
    (hdr1 hdr2 seg : list byte) :
  ICMP_ADDRFAMILY pkt = AF_INET ->
  is_iphdr hdr1 ->
  is_iphdr hdr2 ->
  icmp_parse pkt (hdr1 ++ seg) = icmp_parse pkt (hdr2 ++ seg) /\
  icmp_parse pkt (hdr1 ++ seg) = parse_segment icmpv4 pkt seg.
Proof.
  intros Hfam H1 H2.
  assert (Hr : GET_RULE pkt = icmpv4) by (unfold GET_RULE; rewrite Hfam; reflexivity).
  unfold icmp_parse. rewrite Hr.
  rewrite !strip_step_iphdr by (assumption || discriminate).
  split; reflexivity.
Qed.

Lemma v4_parse_ignores_header_content_witness :
  let pkt := mk_packet AF_INET ICMP_REPLY 0 0 [] in
  let seg := [x08; x00; x3b; x0f; x12; x34; x00; x01; xaa; xbb] in
  icmp_parse pkt (iphdr20 ++ seg)
  = icmp_parse pkt ([x66; xff; xff; xff; xff; xff; xff; xff;
                     x00; x00; x00; x00; x00; x00; x00; x00;
                     x01; x02; x03; x04; x05; x06; x07; x08] ++ seg).
Proof.
  intros pkt seg.
  refine (proj1 (v4_parse_ignores_header_content pkt iphdr20 _ seg _ _ _)).
  - reflexivity.
  - split; [discriminate | reflexivity].
  - split; [discriminate | reflexivity].
Defined.

(** ** Sending *)

(** X15. Send, then parse: for a well-formed packet [icmp_send] makes one call
    of the send primitive, to the packet's peer, with a length equal to the
    size of the buffer, and that buffer parses back to the packet. *)
Theorem icmp_send_then_parse (sendto : send_call -> Z) (socket : Z)
    (pkt rcv : icmp_packet) (log : list send_call) :
  pkt_wf pkt ->
  ICMP_ADDRFAMILY rcv = ICMP_ADDRFAMILY pkt ->
  exists call,
    icmp_send sendto true socket pkt log = (sendto call, log ++ [call]) /\
    sc_socket call = socket /\
    sc_dest call = peer pkt /\ sc_destlen call = peer_len pkt /\
    sc_len call = Z.of_nat (length (sc_data call)) /\
    parse_segment (GET_RULE rcv) rcv (sc_data call) = (0, received rcv pkt).
Proof.
  intros Hwf Hfam. pose proof Hwf as (_ & _ & Hn & _ & Hlen).
  eexists. unfold icmp_send. rewrite icmp_encode_wire by assumption.
  split; [reflexivity|]. cbn [sc_socket sc_dest sc_destlen sc_len sc_data].
  repeat (split; [reflexivity|]).
  split; [rewrite wire_length; lia|].
  apply parse_segment_wire; assumption.
Qed.

Lemma icmp_send_then_parse_witness :
  let pkt := mk_packet AF_INET ICMP_REQUEST 0x1234 1 [xaa; xbb] in
  let rcv := mk_packet AF_INET ICMP_REPLY 0 0 [] in
  let sendto := fun c : send_call => sc_len c - 1 in
  icmp_send sendto true 3 pkt [] = (9, snd (icmp_send sendto true 3 pkt [])) /\
  exists call,
    icmp_send sendto true 3 pkt [] = (sendto call, [] ++ [call]) /\
    sc_socket call = 3 /\
    sc_dest call = peer pkt /\ sc_destlen call = peer_len pkt /\
    sc_len call = Z.of_nat (length (sc_data call)) /\
    parse_segment (GET_RULE rcv) rcv (sc_data call) = (0, received rcv pkt).
Proof.
  intros pkt rcv sendto. split; [reflexivity|].
  apply (icmp_send_then_parse sendto 3 pkt rcv []); [|reflexivity].
  vm_compute. intuition discriminate.
Defined.

(** X16. For an IPv4 peer the code byte is not checked beyond the checksum: two
    segments that differ in bytes 1 to 3 and both sum to zero parse alike. *)
Theorem v4_parse_ignores_code (pkt : icmp_packet) (hdr : list byte)
    (b0 b1 b2 b3 c1 c2 c3 : byte) (rest : list byte) :
  ICMP_ADDRFAMILY pkt = AF_INET ->
  is_iphdr hdr ->
  checksum (b0 :: b1 :: b2 :: b3 :: rest) = 0 ->
  checksum (b0 :: c1 :: c2 :: c3 :: rest) = 0 ->
  icmp_parse pkt (hdr ++ b0 :: b1 :: b2 :: b3 :: rest)
  = icmp_parse pkt (hdr ++ b0 :: c1 :: c2 :: c3 :: rest).
Proof.
  intros Hfam Hhdr Hb Hc.
  assert (Hr : GET_RULE pkt = icmpv4) by (unfold GET_RULE; rewrite Hfam; reflexivity).
  unfold icmp_parse. rewrite Hr.
  rewrite !strip_step_iphdr by (assumption || discriminate).
  unfold parse_segment. rewrite Hb, Hc.
  unfold parse_fields, read16.
  cbn [length lookup_total list_lookup_total
       drop Z.to_nat ICMP_HDRLEN Pos.to_nat Pos.iter_op Nat.add].
  reflexivity.
Qed.

Lemma v4_parse_ignores_code_witness :
  let pkt := mk_packet AF_INET ICMP_REPLY 0 0 [] in
  icmp_parse pkt (iphdr20 ++ [x08; x00; x3b; x0f; x12; x34; x00; x01; xaa; xbb])
  = icmp_parse pkt (iphdr20 ++ [x08; x05; x3b; x0a; x12; x34; x00; x01; xaa; xbb])
  /\ fst (icmp_parse pkt
            (iphdr20 ++ [x08; x05; x3b; x0a; x12; x34; x00; x01; xaa; xbb])) = 0.
Proof.
  intros pkt. split; [|reflexivity].
  apply (v4_parse_ignores_code pkt iphdr20 x08 x00 x3b x0f x05 x3b x0a).
  - reflexivity.
  - split; [discriminate | reflexivity].
  - reflexivity.
  - reflexivity.
Defined.

(** ** Encoding is injective, and the families do not mix *)

(** X17. Encoding is injective on the logical fields: two well-formed packets
    of one family with the same encoding have the same type, id, seqno and
    payload. *)
Theorem icmp_encode_injective (p1 p2 : icmp_packet) :
  pkt_wf p1 -> pkt_wf p2 ->
  ICMP_ADDRFAMILY p1 = ICMP_ADDRFAMILY p2 ->
  icmp_encode true p1 = icmp_encode true p2 ->
  type p1 = type p2 /\ id p1 = id p2 /\ seqno p1 = seqno p2 /\
  payload_len p1 = payload_len p2 /\ payload_data p1 = payload_data p2.
Proof.
  intros H1 H2 Hfam Henc.
  pose proof H1 as (_ & _ & Hn1 & _ & Hl1).
  pose proof H2 as (_ & _ & Hn2 & _ & Hl2).
  rewrite !icmp_encode_wire in Henc by assumption.
  assert (Hw : wire (GET_RULE p1) p1 = wire (GET_RULE p2) p2) by congruence.
  clear Henc.
  pose proof (parse_segment_wire p1 p1 H1 eq_refl) as E1.
  pose proof (parse_segment_wire p2 p1 H2 Hfam) as E2.
  rewrite <- Hw, E1 in E2. injection E2 as Ht Hi Hs Hp Hpl.
  repeat split; try assumption.
  rewrite <- Hpl in Hp.
  destruct (Z.eqb_spec (payload_len p1) 0) as [E|E].
  - rewrite <- Hpl, E in Hl2. rewrite E in Hl1.
    destruct (payload_data p1); [|discriminate].
    destruct (payload_data p2); [reflexivity | discriminate].
  - congruence.
Qed.

Lemma icmp_encode_injective_witness :
  let p1 := mk_packet AF_INET ICMP_REQUEST 0x1234 1 [xaa; xbb] in
  let p2 := {| peer := {| ss_family := AF_INET; ss_addr := [x7f; x00; x00; x01] |};
               peer_len := 28; type := ICMP_REQUEST; id := 0x1234; seqno := 1;
               payload := Some [xaa; xbb; xcc]; payload_len := 2 |} in
  p1 <> p2 /\
  type p1 = type p2 /\ id p1 = id p2 /\ seqno p1 = seqno p2 /\
  payload_len p1 = payload_len p2 /\ payload_data p1 = payload_data p2.
Proof.
  intros p1 p2. split; [discriminate|].
  apply (icmp_encode_injective p1 p2).
  - vm_compute. intuition discriminate.
  - vm_compute. intuition discriminate.
  - reflexivity.
  - reflexivity.
Defined.

(** X18. The families do not mix: a buffer encoded under one rule and parsed
    under the other (strip step skipped) gives -2 or -5, under the IPv6 rule
    always -5, and leaves the packet as it was. *)
Theorem families_do_not_mix (pkt rcv : icmp_packet) :
  pkt_wf pkt ->
  GET_RULE rcv <> GET_RULE pkt ->
  exists enc code,
    icmp_encode true pkt = Some (enc, ICMP_HDRLEN + payload_len pkt) /\
    parse_segment (GET_RULE rcv) rcv enc = (code, rcv) /\
    (code = -2 \/ code = -5) /\
    (GET_RULE rcv = icmpv6 -> code = -5).
Proof.
  intros Hwf Hne. pose proof Hwf as (_ & _ & Hn & _ & Hlen).
  pose proof (icmp_encode_wire pkt Hn Hlen) as Henc.
  exists (wire (GET_RULE pkt) pkt).
  pose proof (wire_length (GET_RULE pkt) pkt) as Hwl. rewrite Hlen in Hwl.
  assert (H0 : u8 (wire (GET_RULE pkt) pkt !!! 0%nat)
               = type_code (GET_RULE pkt) (type pkt)).
  { unfold wire, wire_header. cbn [app lookup_total list_lookup_total].
    apply type_code_byte. }
  unfold parse_segment. rewrite Hwl, H0.
  destruct (Z.ltb_spec (ICMP_HDRLEN + payload_len pkt) ICMP_HDRLEN); [lia|].
  destruct (GET_RULE_cases pkt) as [[_ Hp]|[_ Hp]];
    destruct (GET_RULE_cases rcv) as [[_ Hr]|[_ Hr]];
    rewrite Hp, Hr in *; try contradiction.
  - exists (-5). split; [exact Henc|].
    cbn [use_checksum icmpv6 Z.eqb negb andb].
    destruct (type pkt); repeat split; auto.
  - cbn [use_checksum icmpv4 Z.eqb negb andb].
    destruct (checksum (wire icmpv6 pkt) =? 0).
    + exists (-5). split; [exact Henc|].
      destruct (type pkt); repeat split; auto.
    + exists (-2). split; [exact Henc|].
      repeat split; auto. discriminate.
Qed.

Lemma families_do_not_mix_witness :
  let pkt := mk_packet AF_INET ICMP_REQUEST 0x1234 1 [xaa; xbb] in
  let rcv := mk_packet AF_INET6 ICMP_REPLY 0 0 [] in
  parse_segment (GET_RULE rcv) rcv
    [x08; x00; x3b; x0f; x12; x34; x00; x01; xaa; xbb] = (-5, rcv) /\
  exists enc code,
    icmp_encode true pkt = Some (enc, ICMP_HDRLEN + payload_len pkt) /\
    parse_segment (GET_RULE rcv) rcv enc = (code, rcv) /\
    (code = -2 \/ code = -5) /\
    (GET_RULE rcv = icmpv6 -> code = -5).
Proof.
  intros pkt rcv. split; [reflexivity|].
  apply (families_do_not_mix pkt rcv).
  - vm_compute. intuition discriminate.
  - discriminate.
Defined.

(** X19. [read16] is big-endian: 256 times the first byte plus the second. *)
Theorem read16_big_endian (data : list byte) (off : nat) :
  (S off < length data)%nat ->
  read16 data off = 256 * u8 (data !!! off) + u8 (data !!! S off) /\
  0 <= read16 data off < 2 ^ 16.
Proof.
  intros _. split; [|apply read16_range].
  unfold read16. rewrite be16_value.
  pose proof (u8_range (data !!! off)). pose proof (u8_range (data !!! S off)).
  unfold to_uint16. apply Z.mod_small. change (2 ^ 16) with 65536. lia.
Qed.

Lemma read16_big_endian_witness :
  read16 [x00; x12; x34] 1 = 0x1234.
Proof.
  refine (eq_trans (proj1 (read16_big_endian [x00; x12; x34] 1 _)) _).
  - simpl. lia.
  - reflexivity.
Defined.
